(** * msal/oauth2cli/authcode.py: the loopback authorization-code receiver

    A shallow embedding of [obtain_auth_code], [browse], [AuthCodeReceiver]
    and [AuthcodeRedirectServer], followed by the properties of the
    listener's state machine.

    Python [str] values are modelled as byte strings ([string]), a [dict]
    as a [gmap], an optional argument as an [option].  Mutation of the
    server object, the requests the network delivers and the effects an
    observer sees are threaded through a small state-and-exception monad. *)

From Stdlib Require Import Ascii.
From stdpp Require Import base strings gmap list pretty.
From Equations Require Import Equations.
From Equations.Prop Require Import Logic.

Local Open Scope string_scope.
Local Open Scope list_scope.
Local Open Scope Z_scope.

(** ** Python values *)

(** The exception classes that occur in the module.  [IOError] stands for
    the whole [EnvironmentError] family the source catches under that name
    ([OSError] and [socket.error] included). *)
Inductive exn : Type :=
| ValueError (msg : string)
| IOError
| IndexError
| KeyError
| TypeError
| OverflowError
| webbrowser_Error
| KeyboardInterrupt.

Inductive result (A : Type) : Type :=
| Return (a : A)
| Raise (e : exn).
Arguments Return {A} a.
Arguments Raise {A} e.

(** [isinstance(e, Exception)]: of the classes above only
    [KeyboardInterrupt] derives from [BaseException] alone. *)
Definition is_Exception (e : exn) : bool :=
  match e with
  | KeyboardInterrupt => false
  | _ => true
  end.

(** Truth value of an optional string: [None] and [''] are false. *)
Definition truthy (v : option string) : bool :=
  match v with
  | Some (String _ _) => true
  | _ => false
  end.

(** [str(v)] of an optional string. *)
Definition str (v : option string) : string := default "None" v.

(** [s.startswith(c)] for a one-character prefix. *)
Definition startswith (s : string) (c : ascii) : bool :=
  match s with
  | String a _ => bool_decide (a = c)
  | EmptyString => false
  end.

(** ** urllib.parse *)

Module urllib.

(** [s.split(sep, 1)]: the text before the first [sep] and, when [sep]
    occurs, the text after it. *)
Fixpoint split1 (sep : ascii) (s : string) : string * option string :=
  match s with
  | EmptyString => (EmptyString, None)
  | String a s' =>
      if decide (a = sep) then (EmptyString, Some s')
      else let '(h, t) := split1 sep s' in (String a h, t)
  end.

(** [s.split(sep)]: never the empty list. *)
Fixpoint split (sep : ascii) (s : string) : list string :=
  match s with
  | EmptyString => [EmptyString]
  | String a s' =>
      if decide (a = sep) then EmptyString :: split sep s'
      else match split sep s' with
           | h :: t => String a h :: t
           | [] => [String a EmptyString]
           end
  end.

(** Modelled from the spec: [urlparse(url).query] of the standard
    library, "the substring after [?]"; the fragment is cut first, as
    [urlsplit] does. *)
Definition urlparse_query (url : string) : string :=
  default EmptyString (split1 "?" (split1 "#" url).1).2.

Definition hexval (a : ascii) : option N :=
  let n := N_of_ascii a in
  if ((48 <=? n) && (n <=? 57))%N then Some (n - 48)%N
  else if ((65 <=? n) && (n <=? 70))%N then Some (n - 55)%N
  else if ((97 <=? n) && (n <=? 102))%N then Some (n - 87)%N
  else None.

(** Modelled from the spec: [unquote] of the standard library, on bytes.
    A [%] followed by two hexadecimal digits is that byte; any other
    [%] passes through. *)
Fixpoint unquote (s : string) : string :=
  match s with
  | EmptyString => EmptyString
  | String c s' =>
      if decide (c = "%"%char) then
        match s' with
        | String h (String l rest) =>
            match hexval h, hexval l with
            | Some a, Some b => String (ascii_of_N (16 * a + b)) (unquote rest)
            | _, _ => String c (unquote s')
            end
        | _ => String c (unquote s')
        end
      else String c (unquote s')
  end.

(** [s.replace('+', ' ')] *)
Fixpoint replace_plus (s : string) : string :=
  match s with
  | EmptyString => EmptyString
  | String c s' =>
      String (if decide (c = "+"%char) then " "%char else c) (replace_plus s')
  end.

(** Modelled from the spec: [parse_qsl] of the standard library with its
    default arguments ([keep_blank_values=False], [strict_parsing=False]):
    [&]-separated [name=value] fields; a field without [=] or with a
    blank value is skipped. *)
Definition parse_field (name_value : string) : option (string * string) :=
  match split1 "=" name_value with
  | (name, Some (String a v)) =>
      Some (unquote (replace_plus name), unquote (replace_plus (String a v)))
  | _ => None
  end.

Definition parse_qsl (qs : string) : list (string * string) :=
  omap parse_field (split "&" qs).

(** One turn of [parse_qs]'s loop: append to the key's list, or start it. *)
Definition add_pair (d : gmap string (list string)) (nv : string * string)
  : gmap string (list string) :=
  match d !! nv.1 with
  | Some vs => <[nv.1 := vs ++ [nv.2]]> d
  | None => <[nv.1 := [nv.2]]> d
  end.

Definition parse_qs (qs : string) : gmap string (list string) :=
  foldl add_pair ∅ (parse_qsl qs).

Definition is_safe (a : ascii) : bool :=
  let n := N_of_ascii a in
  (((48 <=? n) && (n <=? 57)) || ((65 <=? n) && (n <=? 90))
   || ((97 <=? n) && (n <=? 122))
   || bool_decide (a ∈ ["_"; "."; "-"; "~"]%char))%N.

Definition hexdigit (n : N) : ascii :=
  ascii_of_N (if (n <? 10)%N then 48 + n else 55 + n)%N.

(** Modelled from the spec: [quote_plus] of the standard library, on
    bytes. *)
Fixpoint quote_plus (s : string) : string :=
  match s with
  | EmptyString => EmptyString
  | String c s' =>
      if decide (c = " "%char) then String "+" (quote_plus s')
      else if is_safe c then String c (quote_plus s')
      else let n := N_of_ascii c in
           String "%" (String (hexdigit (n / 16)) (String (hexdigit (n mod 16))
                                                          (quote_plus s')))
  end.

Fixpoint join (sep : string) (l : list string) : string :=
  match l with
  | [] => EmptyString
  | [x] => x
  | x :: l' => x +:+ sep +:+ join sep l'
  end.

(** [urlencode] of a dict given as its items, in order. *)
Definition urlencode (query : list (string * string)) : string :=
  join "&" (map (λ kv, quote_plus kv.1 +:+ "=" +:+ quote_plus kv.2) query).

End urllib.

(** ** A state-and-exception monad

    A computation runs on a state [S] and either returns or raises; the
    state it leaves behind survives the exception, as a mutated Python
    object does. *)

Definition M (S A : Type) : Type := S → result A * S.

#[export] Instance M_ret {S} : MRet (M S) := λ A a s, (Return a, s).

#[export] Instance M_bind {S} : MBind (M S) := λ A B k m s,
  match m s with
  | (Return a, s') => k a s'
  | (Raise e, s') => (Raise e, s')
  end.

Definition raise {S A} (e : exn) : M S A := λ s, (Raise e, s).

Definition gets {S A} (f : S → A) : M S A := λ s, (Return (f s), s).

Definition modify {S} (f : S → S) : M S unit := λ s, (Return tt, f s).

(** A call that touches no state. *)
Definition pure_call {S A} (r : result A) : M S A := λ s, (r, s).

(** [try: body finally: fin] *)
Definition try_finally {S A} (body : M S A) (fin : M S unit) : M S A := λ s,
  match body s with
  | (r, s') =>
      match fin s' with
      | (Return _, s'') => (r, s'')
      | (Raise e, s'') => (Raise e, s'')
      end
  end.

(** ** The session: server object, network, observable effects *)

(** What [handle_request] meets when it waits on the socket: a GET request,
    [timeout] seconds without one, or an interruption of the process. *)
Inductive event : Type :=
| Request (path : string)
| Quiet
| Interrupt.

Inductive effect : Type :=
| Log (level msg : string)
| Open (controller : string) (uri : option string)
| Bind (host : string) (port : Z)
| Respond (status : Z) (content_type body : string)
| Close.

#[export] Instance effect_eq_dec : EqDecision effect.
Proof. solve_decision. Defined.

(** The attributes of an [AuthcodeRedirectServer]; [socket_open] is the
    state of the listening socket that [HTTPServer] owns. *)
Record server : Type := Server {
  server_address : string * Z;
  state : option string;
  auth_code : option string;
  timeout : Z;
  socket_open : bool
}.

(** A running session: the server object, the deliveries still to come
    (after the last one nothing arrives any more) and the effects so far,
    oldest first. *)
Record world : Type := World {
  self : server;
  inbox : list event;
  out : list effect
}.

Definition set_auth_code (c : option string) (w : world) : world :=
  World (Server (server_address (self w)) (state (self w)) c
                (timeout (self w)) (socket_open (self w)))
        (inbox w) (out w).

Definition set_socket_open (b : bool) (w : world) : world :=
  World (Server (server_address (self w)) (state (self w)) (auth_code (self w))
                (timeout (self w)) b)
        (inbox w) (out w).

Definition set_inbox (l : list event) (w : world) : world :=
  World (self w) l (out w).

Definition emit (e : effect) (w : world) : world :=
  World (self w) (inbox w) (out w ++ [e]).

(** What the machine offers: the controllers [webbrowser] can find, the
    ports that cannot be bound, the deliveries the listener will meet, the
    port the system hands out when port 0 is asked for, and whether a
    controller manages to show a page. *)
Record host : Type := Machine {
  default_controller : option string;
  runnable : list string;
  ports_in_use : list Z;
  arrivals : list event;
  ephemeral_port : Z;
  opens : bool
}.

(** A machine whose browsers do open pages. *)
Definition Host (default_controller : option string) (runnable : list string)
    (ports_in_use : list Z) (arrivals : list event) : host :=
  Machine default_controller runnable ports_in_use arrivals 49152 true.

(** ** webbrowser *)

Module webbrowser.

(** Modelled from the spec: [webbrowser.get(browser)] of the standard
    library.  Without a name it returns the default controller, with one
    the controller of that browser; [webbrowser.Error] when none is
    found. *)
Definition get (h : host) (browser : option string) : result string :=
  match browser with
  | None =>
      match default_controller h with
      | Some c => Return c
      | None => Raise webbrowser_Error
      end
  | Some name =>
      if bool_decide (name ∈ runnable h) then Return name
      else Raise webbrowser_Error
  end.

(** Modelled from the spec: [controller.open(url)] of the standard library.
    It shows the page and tells whether it managed to; the standard
    controllers fail with [TypeError] on [None], which they take for a
    string. *)
Definition open (h : host) (controller : string) (url : option string)
  : M (list effect) bool :=
  match url with
  | None => raise TypeError
  | Some _ => modify (λ l, l ++ [Open controller url]);; mret (opens h)
  end.

End webbrowser.

(** ** socket *)

Module socket.

(** Modelled from the spec: [socket.getsockname()] of the standard library
    on a socket bound to the host [""] and a port: the wildcard address,
    with the port asked for, or the one the system handed out when 0 was
    asked for.  [TCPServer.server_bind] stores it as [server_address]. *)
Definition getsockname (h : host) (port : Z) : string * Z :=
  ("0.0.0.0", if decide (port = 0) then ephemeral_port h else port).

End socket.

(** ** class AuthCodeReceiver *)

(** Truth value of [qs.get(key)]: a non-empty list. *)
Definition present (qs : gmap string (list string)) (key : string) : bool :=
  match qs !! key with
  | Some (_ :: _) => true
  | _ => false
  end.

(** [qs[key][0]] *)
Definition item0 {S} (qs : gmap string (list string)) (key : string) : M S string :=
  match qs !! key with
  | Some (v :: _) => mret v
  | Some [] => raise IndexError
  | None => raise KeyError
  end.

(** [qs.get(key, [dflt])[0]] *)
Definition get0 {S A} (inj : string → A) (qs : gmap string (list string))
    (key : string) (dflt : A) : M S A :=
  match qs !! key with
  | Some (v :: _) => mret (inj v)
  | Some [] => raise IndexError
  | None => mret dflt
  end.

Module AuthCodeReceiver.

Definition _send_full_response (body : string) (is_ok : bool) : M world unit :=
  let content_type := if startswith body "<" then "text/html" else "text/plain" in
  modify (emit (Respond (if is_ok then 200 else 400) content_type body)).

Definition do_GET (path : string) : M world unit :=
  let qs := urllib.parse_qs (urllib.urlparse_query path) in
  if present qs "code" then
    server_state ← gets (λ w, state (self w));
    mismatch ← (if truthy server_state then
                  st ← get0 Some qs "state" None;
                  mret (bool_decide (server_state ≠ st))
                else mret false);
    if mismatch : bool then raise (ValueError "State does not match")
    else
      code ← item0 qs "code";
      modify (set_auth_code (Some code));;
      _send_full_response "Authentication complete. You can close this window" true
  else if present qs "text" && present qs "link" then
    link ← item0 qs "link";
    text ← item0 qs "text";
    exit_hint ← get0 id qs "exit_hint" "";
    _send_full_response
      ("<a href=" +:+ link +:+ ">" +:+ text +:+ "</a><hr/>" +:+ exit_hint) true
  else
    _send_full_response "This web service serves your redirect_uri" true.

End AuthCodeReceiver.

(** ** class AuthcodeRedirectServer *)

Module AuthcodeRedirectServer.

(** [HTTPServer.__init__(self, ("", port), AuthCodeReceiver)] binds the
    socket to [("", port)], records as [server_address] what
    [getsockname()] then reports, and starts listening.  A port outside
    0..65535 is refused with [OverflowError], a port that cannot be bound
    with [IOError]; on either failure [TCPServer.__init__] calls
    [server_close()] before the exception leaves.  The three attributes
    follow. *)
Definition __init__ (h : host) (port : Z) (request_state : option string)
  : M (list effect) server :=
  modify (λ l, l ++ [Bind "" port]);;
  if bool_decide (port < 0 ∨ 65535 < port) then
    modify (λ l, l ++ [Close]);; raise OverflowError
  else if bool_decide (port ∈ ports_in_use h) then
    modify (λ l, l ++ [Close]);; raise IOError
  else mret (Server (socket.getsockname h port) request_state None 300 true).

(** [HTTPServer.server_close]: close the listening socket. *)
Definition server_close : M world unit :=
  modify (emit Close);; modify (set_socket_open false).

(** "Break the request-handling loop by tearing down the server" *)
Definition handle_timeout : M world unit := server_close.

(** [HTTPServer.handle_request], inherited: wait on the listening socket
    for one request and run [do_GET] on it, or call [handle_timeout] when
    [timeout] seconds pass without one.  Waiting on a closed socket fails
    (the [IOError] of the loop's comment).  An [Exception] raised by the
    handler does not leave [handle_request]: [socketserver] catches it,
    reports it through [handle_error] on the standard error stream, drops
    the connection and returns; anything else is raised again. *)
Definition handle_request : M world unit := λ w,
  if socket_open (self w) then
    match inbox w with
    | [] => handle_timeout w
    | Request path :: rest =>
        match AuthCodeReceiver.do_GET path (set_inbox rest w) with
        | (Raise e, w') => if is_Exception e then (Return tt, w') else (Raise e, w')
        | (Return _, w') => (Return tt, w')
        end
    | Quiet :: rest => handle_timeout (set_inbox rest w)
    | Interrupt :: rest => raise KeyboardInterrupt (set_inbox rest w)
    end
  else raise IOError w.

Definition pending (w : world) : nat :=
  (2 * length (inbox w) + (if socket_open (self w) then 1 else 0))%nat.

(** The loop of [get_auth_code]:
    [while not self.auth_code: try: self.handle_request()
     except ValueError: break  except IOError: break].
    Every turn consumes a delivery or closes the socket, so [pending]
    decreases. *)
Equations? while_not_auth_code (w : world) : result unit * world
  by wf (pending w) lt :=
while_not_auth_code w with truthy (auth_code (self w)) := {
  | true := (Return tt, w)
  | false with inspect (handle_request w) := {
      | exist _ (Return _, w') _ := while_not_auth_code w'
      | exist _ (Raise (ValueError _), w') _ := (Return tt, w')
      | exist _ (Raise IOError, w') _ := (Return tt, w')
      | exist _ (Raise e, w') _ := (Raise e, w') } }.
Proof.
  all: match goal with H : handle_request _ = _ |- _ => revert H end.
  all: destruct w as [[? ? ? ? ?] ? ?].
  all: unfold handle_request, pending, handle_timeout, server_close,
         AuthCodeReceiver.do_GET, AuthCodeReceiver._send_full_response,
         item0, get0, raise, gets, modify, mbind, M_bind, mret, M_ret; simpl.
  all: repeat case_match; intros; simplify_eq/=; lia.
Qed.

Definition get_auth_code : M world (option string) :=
  try_finally while_not_auth_code server_close;;
  gets (λ w, auth_code (self w)).

End AuthcodeRedirectServer.

(** ** browse and obtain_auth_code *)

Definition logger (level msg : string) : M (list effect) unit :=
  modify (λ l, l ++ [Log level msg]).

(** [for browser in names: try: controller = webbrowser.get(browser); break
     except webbrowser.Error: pass] *)
Fixpoint try_browsers (h : host) (names : list string) (controller : string)
  : result string :=
  match names with
  | [] => Return controller
  | browser :: rest =>
      match webbrowser.get h (Some browser) with
      | Return c => Return c
      | Raise webbrowser_Error => try_browsers h rest controller
      | Raise e => Raise e
      end
  end.

(** The names the loop of [browse] goes through. *)
Definition popular : list string := ["chrome"; "firefox"; "safari"; "windows-default"].

Definition browse (h : host) (auth_uri : option string) : M (list effect) unit :=
  controller ← pure_call (webbrowser.get h None);
  controller ← pure_call (try_browsers h popular controller);
  logger "INFO" ("Please open a browser on THIS device to visit: " +:+ str auth_uri);;
  webbrowser.open h controller auth_uri;;
  mret tt.

(** A method call on the freshly built server: it runs in the session made
    of that server and the deliveries to come, and leaves its effects. *)
Definition call {A} (h : host) (server : server) (method : M world A)
  : M (list effect) A := λ l,
  let '(r, w) := method (World server (arrivals h) l) in (r, out w).

(** The two strings [obtain_auth_code] formats when [text] is given. *)
Definition exit_hint (listen_port : Z) : string :=
  "Visit http://localhost:" +:+ pretty listen_port +:+ "?auth_code=exit to abort".

Definition page (listen_port : Z) (auth_uri text : option string) : string :=
  "http://localhost:" +:+ pretty listen_port +:+ "?" +:+
  urllib.urlencode [("text", str text); ("link", str auth_uri);
                    ("exit_hint", exit_hint listen_port)].

Definition obtain_auth_code (h : host) (listen_port : Z)
    (auth_uri text request_state : option string) : M (list effect) (option string) :=
  (if truthy text then
     logger "WARNING" (exit_hint listen_port);;
     browse h (Some (page listen_port auth_uri text))
   else browse h auth_uri);;
  server ← AuthcodeRedirectServer.__init__ h listen_port request_state;
  call h server AuthcodeRedirectServer.get_auth_code.

(** * Vocabulary of the properties *)

(** The decoded query of a request path, [parse_qs(urlparse(path).query)]. *)
Definition decoded (path : string) : gmap string (list string) :=
  urllib.parse_qs (urllib.urlparse_query path).

(** The first value of a parameter, when the request carries it. *)
Definition first_value (qs : gmap string (list string)) (key : string)
  : option string :=
  match qs !! key with
  | Some (v :: _) => Some v
  | _ => None
  end.

(** What every decoded mapping satisfies: each key has at least one value,
    and no value is blank. *)
Definition well_formed (qs : gmap string (list string)) : Prop :=
  map_Forall (λ _ vs, vs ≠ [] ∧ Forall (λ v, v ≠ "") vs) qs.

(** The two fixed responses. *)
Definition completed : effect :=
  Respond 200 "text/plain" "Authentication complete. You can close this window".

Definition served : effect :=
  Respond 200 "text/plain" "This web service serves your redirect_uri".

Definition is_response (e : effect) : bool :=
  match e with
  | Respond _ _ _ => true
  | _ => false
  end.

(** A response other than the one that goes with a captured code. *)
Definition other_reply (e : effect) : Prop :=
  is_response e = true ∧ e ≠ completed.

(** The number of [server_close] calls a trace records. *)
Definition closes (l : list effect) : nat :=
  length (filter (λ e, e = Close) l).

(** The number of captures a trace records. *)
Definition captures (l : list effect) : nat :=
  length (filter (λ e, e = completed) l).

(** [server_close] applied to a session. *)
Definition closed (w : world) : world := set_socket_open false (emit Close w).

(** One call of [handle_request] on a listening server: what it returns or
    raises, and the session it leaves. *)
Inductive turn (w : world) : result unit → world → Prop :=
| turn_timeout :
    inbox w = [] ∨ (∃ rest, inbox w = Quiet :: rest) →
    turn w (Return tt) (closed (set_inbox (tail (inbox w)) w))
| turn_reply path rest e :
    inbox w = Request path :: rest →
    other_reply e →
    turn w (Return tt) (emit e (set_inbox rest w))
| turn_capture path rest a code :
    inbox w = Request path :: rest →
    turn w (Return tt)
         (emit completed (set_auth_code (Some (String a code)) (set_inbox rest w)))
| turn_dropped path rest :
    inbox w = Request path :: rest →
    turn w (Return tt) (set_inbox rest w)
| turn_interrupt rest :
    inbox w = Interrupt :: rest →
    turn w (Raise KeyboardInterrupt) (set_inbox rest w).

(** How the loop leaves a session that was listening: the terminal states
    of the listener, with the responses [pre] sent on the way. *)
Inductive terminal (w : world) (r : result unit) (w1 : world) : Prop :=
| Captured pre a code :
    r = Return tt →
    auth_code (self w1) = Some (String a code) →
    socket_open (self w1) = true →
    out w1 = out w ++ pre ++ [completed] →
    Forall other_reply pre →
    terminal w r w1
| TimedOut pre :
    r = Return tt →
    auth_code (self w1) = None →
    socket_open (self w1) = false →
    out w1 = out w ++ pre ++ [Close] →
    Forall other_reply pre →
    terminal w r w1
| Interrupted pre :
    r = Raise KeyboardInterrupt →
    auth_code (self w1) = None →
    socket_open (self w1) = true →
    out w1 = out w ++ pre →
    Forall other_reply pre →
    terminal w r w1.

(** The controller [browse] ends up with: the first popular browser found,
    else the default one. *)
Fixpoint preferred (h : host) (names : list string) (controller : string) : string :=
  match names with
  | [] => controller
  | browser :: rest =>
      if bool_decide (browser ∈ runnable h) then browser
      else preferred h rest controller
  end.

(** The effects of the browser-opening step of [obtain_auth_code] when a
    default controller [d] exists. *)
Definition opening (h : host) (listen_port : Z) (auth_uri text : option string)
    (d : string) : list effect :=
  if truthy text then
    [Log "WARNING" (exit_hint listen_port);
     Log "INFO" ("Please open a browser on THIS device to visit: " +:+
                 page listen_port auth_uri text);
     Open (preferred h popular d) (Some (page listen_port auth_uri text))]
  else
    [Log "INFO" ("Please open a browser on THIS device to visit: " +:+ str auth_uri);
     Open (preferred h popular d) auth_uri].

(** The server [obtain_auth_code] constructs. *)
Definition new_server (listen_port : Z) (request_state : option string) : server :=
  Server ("0.0.0.0", listen_port) request_state None 300 true.




(** A session that has just started to listen on port 8000. *)
Definition listening (request_state : option string) (deliveries : list event)
  : world :=
  World (new_server 8000 request_state) deliveries [].

(** [c in s] *)
Fixpoint occurs (c : ascii) (s : string) : bool :=
  match s with
  | EmptyString => false
  | String a s' => bool_decide (a = c) || occurs c s'
  end.

Ltac run_monad :=
  unfold AuthCodeReceiver._send_full_response, item0, get0, raise, gets,
    modify, pure_call, try_finally, logger, mbind, M_bind, mret, M_ret; simpl.

Ltac in_list :=
  repeat first [by apply elem_of_cons; left | apply elem_of_cons; right].

(** * Properties *)

(** ** The decoder *)

Lemma unquote_nonblank a s : urllib.unquote (String a s) ≠ "".
Proof.
  simpl. case_decide; [|done].
  destruct s as [|h [|l rest]]; [done..|].
  by destruct (urllib.hexval h), (urllib.hexval l).
Qed.

Lemma parse_field_nonblank f name value :
  urllib.parse_field f = Some (name, value) → value ≠ "".
Proof.
  unfold urllib.parse_field.
  destruct (urllib.split1 "=" f) as [n [[|a v]|]]; intros [= <- <-]; [].
  apply unquote_nonblank.
Qed.

Lemma parse_qsl_nonblank q :
  Forall (λ nv, nv.2 ≠ "") (urllib.parse_qsl q).
Proof.
  unfold urllib.parse_qsl. apply Forall_forall. intros [name value] Hin.
  apply list_elem_of_omap in Hin as (f & _ & Hf).
  by eapply parse_field_nonblank.
Qed.

Lemma add_pair_well_formed d nv :
  well_formed d → nv.2 ≠ "" → well_formed (urllib.add_pair d nv).
Proof.
  intros Hd Hv. unfold urllib.add_pair.
  destruct (d !! nv.1) as [vs|] eqn:Hk; apply map_Forall_insert_2; try done.
  - destruct (Hd _ _ Hk) as [Hne Hall]. split.
    + by destruct vs.
    + apply Forall_app. auto.
  - split; [done|]. by constructor.
Qed.

Lemma parse_qs_well_formed q : well_formed (urllib.parse_qs q).
Proof.
  unfold urllib.parse_qs.
  assert (∀ l d, well_formed d → Forall (λ nv, nv.2 ≠ "") l →
                 well_formed (foldl urllib.add_pair d l)) as Hfold.
  { induction l as [|nv l IH]; intros d Hd Hl; [done|].
    inversion_clear Hl. simpl. apply IH; [|done]. by apply add_pair_well_formed. }
  apply Hfold; [apply map_Forall_empty | apply parse_qsl_nonblank].
Qed.

Lemma well_formed_lookup qs key :
  well_formed qs →
  qs !! key = None ∨ ∃ a v vs, qs !! key = Some (String a v :: vs).
Proof.
  intros Hqs. destruct (qs !! key) as [vs|] eqn:Hk; [right|by left].
  destruct (Hqs _ _ Hk) as [Hne Hall].
  destruct vs as [|[|a v] vs]; [done| |by eauto].
  by inversion_clear Hall.
Qed.

Lemma decoded_lookup path key :
  decoded path !! key = None ∨ ∃ a v vs, decoded path !! key = Some (String a v :: vs).
Proof. apply well_formed_lookup, parse_qs_well_formed. Qed.

(** ** The handler *)

Lemma do_GET_capture w path code codes :
  decoded path !! "code" = Some (code :: codes) →
  truthy (state (self w)) = false ∨ first_value (decoded path) "state" = state (self w) →
  AuthCodeReceiver.do_GET path w = (Return tt, emit completed (set_auth_code (Some code) w)).
Proof.
  intros Hcode Hstate. unfold AuthCodeReceiver.do_GET, present.
  fold (decoded path). rewrite Hcode. run_monad.
  destruct Hstate as [Hfalsy | Hsame].
  - rewrite Hfalsy. simpl. by rewrite Hcode.
  - destruct (truthy (state (self w))) eqn:Htruthy; simpl; [|by rewrite Hcode].
    unfold first_value in Hsame.
    destruct (decoded path !! "state") as [[|s ss]|] eqn:Hst; simpl.
    + rewrite <- Hsame in Htruthy. done.
    + rewrite <- Hsame. rewrite bool_decide_eq_false_2 by auto. by rewrite Hcode.
    + rewrite <- Hsame in Htruthy. done.
Qed.

Lemma do_GET_mismatch w path code codes :
  decoded path !! "code" = Some (code :: codes) →
  truthy (state (self w)) = true →
  first_value (decoded path) "state" ≠ state (self w) →
  AuthCodeReceiver.do_GET path w = (Raise (ValueError "State does not match"), w).
Proof.
  intros Hcode Htruthy Hdiff. unfold AuthCodeReceiver.do_GET, present.
  fold (decoded path). rewrite Hcode. run_monad. rewrite Htruthy. simpl.
  unfold first_value in Hdiff.
  destruct (decoded_lookup path "state") as [Hst | (a & v & vs & Hst)];
    rewrite Hst in Hdiff |- *; simpl.
  - rewrite bool_decide_eq_true_2; [done|]. congruence.
  - rewrite bool_decide_eq_true_2; [done|]. congruence.
Qed.

Lemma do_GET_landing w path link links text texts :
  decoded path !! "code" = None →
  decoded path !! "link" = Some (link :: links) →
  decoded path !! "text" = Some (text :: texts) →
  AuthCodeReceiver.do_GET path w =
    (Return tt,
     emit (Respond 200 "text/html"
             ("<a href=" +:+ link +:+ ">" +:+ text +:+ "</a><hr/>" +:+
              default "" (first_value (decoded path) "exit_hint"))) w).
Proof.
  intros Hcode Hlink Htext. unfold AuthCodeReceiver.do_GET, present.
  fold (decoded path). run_monad. rewrite Hcode, !Hlink, !Htext. simpl.
  unfold first_value.
  destruct (decoded_lookup path "exit_hint") as [Hx | (a & v & vs & Hx)];
    by rewrite Hx.
Qed.

Lemma do_GET_default w path :
  decoded path !! "code" = None →
  decoded path !! "text" = None ∨ decoded path !! "link" = None →
  AuthCodeReceiver.do_GET path w = (Return tt, emit served w).
Proof.
  intros Hcode Hnot. unfold AuthCodeReceiver.do_GET, present.
  fold (decoded path). rewrite Hcode.
  destruct Hnot as [-> | ->]; [done|].
  by destruct (decoded path !! "text") as [[|? ?]|].
Qed.

(** The three ways [do_GET] can go, by what the request carries. *)
Lemma do_GET_cases w path :
  (decoded path !! "code" = None
   ∧ ∃ content_type body,
       Respond 200 content_type body ≠ completed
       ∧ AuthCodeReceiver.do_GET path w
         = (Return tt, emit (Respond 200 content_type body) w))
  ∨ (∃ a c codes,
       decoded path !! "code" = Some (String a c :: codes)
       ∧ (truthy (state (self w)) = false
          ∨ first_value (decoded path) "state" = state (self w))
       ∧ AuthCodeReceiver.do_GET path w
         = (Return tt, emit completed (set_auth_code (Some (String a c)) w)))
  ∨ (is_Some (decoded path !! "code")
     ∧ truthy (state (self w)) = true
     ∧ first_value (decoded path) "state" ≠ state (self w)
     ∧ AuthCodeReceiver.do_GET path w
       = (Raise (ValueError "State does not match"), w)).
Proof.
  destruct (decoded_lookup path "code") as [Hcode | (a & c & codes & Hcode)].
  - left. split; [done|].
    destruct (decoded_lookup path "text") as [Htext | (? & ? & ? & Htext)];
      [eexists _, _; split; [|by apply do_GET_default; auto]; done|].
    destruct (decoded_lookup path "link") as [Hlink | (? & ? & ? & Hlink)];
      [eexists _, _; split; [|by apply do_GET_default; auto]; done|].
    eexists _, _. split; [|by eapply do_GET_landing]. done.
  - right. destruct (truthy (state (self w))) eqn:Htruthy.
    + destruct (decide (first_value (decoded path) "state" = state (self w))).
      * left. eexists _, _, _. split; [done|]. split; [by right|].
        by eapply do_GET_capture; [|right].
      * right. split; [by rewrite Hcode|]. split; [done|]. split; [done|].
        by eapply do_GET_mismatch.
    + left. eexists _, _, _. split; [done|]. split; [by left|].
      by eapply do_GET_capture; [|left].
Qed.

(** ** The receive loop *)

Import AuthcodeRedirectServer.

(** One turn of the loop, as the source reads. *)
Lemma loop_unfold w :
  while_not_auth_code w =
    if truthy (auth_code (self w)) then (Return tt, w)
    else match handle_request w with
         | (Return _, w') => while_not_auth_code w'
         | (Raise (ValueError _), w') => (Return tt, w')
         | (Raise IOError, w') => (Return tt, w')
         | (Raise e, w') => (Raise e, w')
         end.
Proof.
  rewrite while_not_auth_code_equation_1.
  destruct (truthy (auth_code (self w))); simpl; [done|].
  unfold inspect.
  generalize (@eq_refl _ (handle_request w)).
  generalize (handle_request w) at 2 3 as o.
  intros [[[]|[]] w'] Heq; simpl; by rewrite Heq.
Qed.

(** [handle_request] on a request, by what [do_GET] did. *)
Lemma handle_request_on_request w path rest :
  socket_open (self w) = true → inbox w = Request path :: rest →
  handle_request w
  = match AuthCodeReceiver.do_GET path (set_inbox rest w) with
    | (Raise e, w') => if is_Exception e then (Return tt, w') else (Raise e, w')
    | (Return _, w') => (Return tt, w')
    end.
Proof. intros Hopen Hin. unfold handle_request. by rewrite Hopen, Hin. Qed.

Lemma handle_request_turn w :
  socket_open (self w) = true →
  turn w (handle_request w).1 (handle_request w).2.
Proof.
  intros Hopen.
  destruct (inbox w) as [|[path| |] rest] eqn:Hin.
  - unfold handle_request. rewrite Hopen, Hin.
    replace (handle_timeout w) with
      (Return tt, closed (set_inbox (tail (inbox w)) w))
      by (destruct w; simpl in *; by subst).
    apply turn_timeout. auto.
  - rewrite (handle_request_on_request w path rest) by done.
    destruct (decoded_lookup path "code") as [Hcode | (a & v & vs & Hcode)].
    + destruct (decoded_lookup path "text") as [Htext | (? & ? & ? & Htext)];
        [rewrite do_GET_default by auto; by eapply turn_reply|].
      destruct (decoded_lookup path "link") as [Hlink | (? & ? & ? & Hlink)];
        [rewrite do_GET_default by auto; by eapply turn_reply|].
      erewrite do_GET_landing by done. by eapply turn_reply.
    + destruct (truthy (state (self w))) eqn:Htruthy.
      * destruct (decide (first_value (decoded path) "state" = state (self w))).
        -- erewrite do_GET_capture; [by eapply turn_capture|done|by right].
        -- erewrite do_GET_mismatch by done. by eapply turn_dropped.
      * erewrite do_GET_capture; [by eapply turn_capture|done|by left].
  - unfold handle_request. rewrite Hopen, Hin.
    replace rest with (tail (inbox w)) by by rewrite Hin.
    apply turn_timeout. eauto.
  - unfold handle_request. rewrite Hopen, Hin. by apply turn_interrupt.
Qed.

Lemma loop_captured w :
  truthy (auth_code (self w)) = true → while_not_auth_code w = (Return tt, w).
Proof. intros H. by rewrite loop_unfold, H. Qed.

Lemma loop_closed w :
  truthy (auth_code (self w)) = false → socket_open (self w) = false →
  while_not_auth_code w = (Return tt, w).
Proof.
  intros Hc Ho. rewrite loop_unfold, Hc.
  unfold handle_request. by rewrite Ho.
Qed.

Lemma terminal_after w e w' r w1 :
  other_reply e → out w' = out w ++ [e] →
  terminal w' r w1 → terminal w r w1.
Proof.
  intros He Hout [pre a c ? ? ? Ho ?|pre ? ? ? Ho ?|pre ? ? ? Ho ?];
    rewrite Hout, <- app_assoc in Ho; simpl in Ho.
  - by eapply (Captured _ _ _ (e :: pre)); [..|constructor].
  - by eapply (TimedOut _ _ _ (e :: pre)); [..|constructor].
  - by eapply (Interrupted _ _ _ (e :: pre)); [..|constructor].
Qed.

Lemma terminal_from w w' r w1 :
  out w' = out w → terminal w' r w1 → terminal w r w1.
Proof.
  intros Hout [pre a c ? ? ? Ho ?|pre ? ? ? Ho ?|pre ? ? ? Ho ?]; rewrite Hout in Ho.
  - by eapply Captured.
  - by eapply TimedOut.
  - by eapply Interrupted.
Qed.

(** Every run of the loop from a listening session ends in one of the
    terminal states. *)
Lemma loop_terminal w :
  socket_open (self w) = true → auth_code (self w) = None →
  terminal w (while_not_auth_code w).1 (while_not_auth_code w).2.
Proof.
  remember (pending w) as n eqn:Hn. revert w Hn.
  induction n as [n IH] using lt_wf_ind. intros w -> Hopen Hcode.
  rewrite loop_unfold, Hcode. simpl.
  pose proof (handle_request_turn w Hopen) as Hturn.
  destruct (handle_request w) as [r w']. simpl in Hturn.
  inversion Hturn as [Hin|path rest e Hin He|path rest a c Hin|path rest Hin|rest Hin];
    subst.
  - rewrite loop_closed by (simpl; by rewrite ?Hcode). simpl.
    by apply (TimedOut _ _ _ []).
  - apply (terminal_after _ e (emit e (set_inbox rest w))); [done..|].
    eapply IH; [|done..]. unfold pending. simpl. rewrite Hin, Hopen. simpl. lia.
  - rewrite loop_captured by done. simpl. by eapply (Captured _ _ _ []).
  - apply (terminal_from _ (set_inbox rest w)); [done|].
    eapply IH; [|done..]. unfold pending. simpl. rewrite Hin, Hopen. simpl. lia.
  - simpl. apply (Interrupted _ _ _ []); try done. simpl. by rewrite app_nil_r.
Qed.

Lemma get_auth_code_eq w :
  get_auth_code w =
    match while_not_auth_code w with
    | (Return _, w1) => (Return (auth_code (self w1)), closed w1)
    | (Raise e, w1) => (Raise e, closed w1)
    end.
Proof.
  unfold get_auth_code, server_close. run_monad.
  by destruct (while_not_auth_code w) as [[[]|e] w1].
Qed.

(** ** Counting in traces *)

Lemma captures_app l1 l2 : captures (l1 ++ l2) = (captures l1 + captures l2)%nat.
Proof. unfold captures. by rewrite filter_app, length_app. Qed.

Lemma closes_app l1 l2 : closes (l1 ++ l2) = (closes l1 + closes l2)%nat.
Proof. unfold closes. by rewrite filter_app, length_app. Qed.

Lemma replies_count pre :
  Forall other_reply pre → captures pre = 0%nat ∧ closes pre = 0%nat.
Proof.
  induction 1 as [|e pre [Hr Hne] _ [IH1 IH2]]; [done|].
  unfold captures, closes in *.
  rewrite !filter_cons_False; [done| |done]. by destruct e.
Qed.


(** What a whole call of [get_auth_code] on a listening session leaves, in
    terms of the state [w1] in which the loop ended. *)
Lemma get_auth_code_summary w :
  socket_open (self w) = true → auth_code (self w) = None →
  ∃ extra,
    out (get_auth_code w).2 = out w ++ extra
    ∧ socket_open (self (get_auth_code w).2) = false
    ∧ auth_code (self (get_auth_code w).2) = auth_code (self (while_not_auth_code w).2)
    ∧ captures extra
      = (if auth_code (self (while_not_auth_code w).2) is Some _ then 1 else 0)%nat
    ∧ closes extra
      = (if socket_open (self (while_not_auth_code w).2) then 1 else 2)%nat
    ∧ (auth_code (self (while_not_auth_code w).2) = None
       ∨ ∃ a c, auth_code (self (while_not_auth_code w).2) = Some (String a c)
                ∧ (get_auth_code w).1 = Return (Some (String a c)))
    ∧ (socket_open (self (while_not_auth_code w).2) = false →
       (get_auth_code w).1 = Return None).
Proof.
  intros Hopen Hfresh. pose proof (loop_terminal w Hopen Hfresh) as Hterm.
  rewrite get_auth_code_eq.
  destruct (while_not_auth_code w) as [r w1]. simpl in *.
  destruct Hterm as [pre a c -> Hc Ho Hout Hpre|pre -> Hc Ho Hout Hpre
                    |pre -> Hc Ho Hout Hpre];
    destruct (replies_count pre Hpre) as [Hcap Hcl];
    simpl; rewrite Hc, Ho, Hout.
  - exists (pre ++ [completed; Close]).
    rewrite !captures_app, !closes_app, Hcap, Hcl, <- !app_assoc. simpl.
    repeat split; try done. right. eauto.
  - exists (pre ++ [Close; Close]).
    rewrite !captures_app, !closes_app, Hcap, Hcl, <- !app_assoc. simpl.
    repeat split; try done. by left.
  - exists (pre ++ [Close]).
    rewrite !captures_app, !closes_app, Hcap, Hcl, <- !app_assoc.
    repeat split; try done. by left.
Qed.

(** ** The scenarios of the specification *)

(** A machine with a default browser, the port free, and the given
    deliveries. *)
Example scenario_1 :
  (obtain_auth_code (Host (Some "xdg-open") [] [] [Request "/?code=abc123"])
                    8000 (Some "https://login.example/authorize") None None []).1
  = Return (Some "abc123").
Proof. reflexivity. Qed.

Example scenario_2 :
  (obtain_auth_code (Host (Some "xdg-open") [] [] [Request "/?code=abc123&state=xyz"])
                    8000 (Some "https://login.example/authorize") None (Some "xyz") []).1
  = Return (Some "abc123").
Proof. reflexivity. Qed.

(** The mismatching request is dropped; nothing else arrives and the
    session times out. *)
Example scenario_3 :
  obtain_auth_code (Host (Some "xdg-open") [] [] [Request "/?code=abc123&state=wrong"])
                   8000 (Some "https://login.example/authorize") None (Some "xyz") []
  = (Return None,
     [Log "INFO" "Please open a browser on THIS device to visit: https://login.example/authorize";
      Open "xdg-open" (Some "https://login.example/authorize");
      Bind "" 8000; Close; Close]).
Proof. reflexivity. Qed.

Example scenario_4 :
  out (AuthCodeReceiver.do_GET "/?text=Login&link=http://example.com/auth"
         (listening None [])).2
  = [Respond 200 "text/html" "<a href=http://example.com/auth>Login</a><hr/>"].
Proof. reflexivity. Qed.

Example scenario_5 :
  obtain_auth_code (Host (Some "xdg-open") [] [] []) 8000
                   (Some "https://login.example/authorize") None None []
  = (Return None,
     [Log "INFO" "Please open a browser on THIS device to visit: https://login.example/authorize";
      Open "xdg-open" (Some "https://login.example/authorize");
      Bind "" 8000; Close; Close]).
Proof. reflexivity. Qed.

(** Without [auth_uri] and without [text], the controller is asked to open
    [None]. *)
Example no_auth_uri :
  obtain_auth_code (Host (Some "xdg-open") [] [] [Request "/?code=abc123"])
                   8000 None None None []
  = (Raise TypeError,
     [Log "INFO" "Please open a browser on THIS device to visit: None"]).
Proof. reflexivity. Qed.

(** ** Claims about the handler and the loop *)

(** C1, what the code does. A request that carries a [code] while its
    first [state] value is missing or differs from the server's non-empty
    expected state makes [do_GET] raise [ValueError] with the session
    untouched ([auth_code] not written, nothing sent), as claimed; but the
    exception does not reach the loop: [handle_request] returns, and
    [get_auth_code] goes on with the later deliveries instead of returning
    [None]. *)
Theorem state_mismatch_does_not_abort w path rest code codes :
  socket_open (self w) = true →
  auth_code (self w) = None →
  inbox w = Request path :: rest →
  decoded path !! "code" = Some (code :: codes) →
  truthy (state (self w)) = true →
  first_value (decoded path) "state" ≠ state (self w) →
  AuthCodeReceiver.do_GET path (set_inbox rest w)
    = (Raise (ValueError "State does not match"), set_inbox rest w)
  ∧ handle_request w = (Return tt, set_inbox rest w)
  ∧ while_not_auth_code w = while_not_auth_code (set_inbox rest w)
  ∧ get_auth_code w = get_auth_code (set_inbox rest w).
Proof.
  intros Hopen Hfresh Hin Hcode Htruthy Hdiff.
  assert (AuthCodeReceiver.do_GET path (set_inbox rest w)
          = (Raise (ValueError "State does not match"), set_inbox rest w)) as Hget
    by by eapply do_GET_mismatch.
  assert (handle_request w = (Return tt, set_inbox rest w)) as Hturn
    by by rewrite (handle_request_on_request w path rest), Hget.
  assert (while_not_auth_code w = while_not_auth_code (set_inbox rest w)) as Hloop
    by by rewrite (loop_unfold w), Hfresh, Hturn.
  repeat split; try done. by rewrite !get_auth_code_eq, Hloop.
Qed.

Lemma state_mismatch_does_not_abort_witness :
  get_auth_code (listening (Some "xyz") [Request "/?code=abc123&state=wrong";
                                         Request "/?code=abc123&state=xyz"])
  = get_auth_code (listening (Some "xyz") [Request "/?code=abc123&state=xyz"]).
Proof.
  eapply (state_mismatch_does_not_abort
            (listening (Some "xyz") [Request "/?code=abc123&state=wrong";
                                     Request "/?code=abc123&state=xyz"])
            "/?code=abc123&state=wrong" _ "abc123" []).
  - reflexivity.
  - reflexivity.
  - reflexivity.
  - vm_compute. reflexivity.
  - reflexivity.
  - vm_compute. discriminate.
Defined.

(** The session of the witness returns the code of the second request. *)
Example state_mismatch_then_code :
  (get_auth_code (listening (Some "xyz") [Request "/?code=abc123&state=wrong";
                                          Request "/?code=abc123&state=xyz"])).1
  = Return (Some "abc123").
Proof. reflexivity. Qed.

(** C2. A request that carries a [code], whatever else it carries, and
    passes the state check (the expected state is [None] or empty, or
    equals the first [state] value) stores the first [code] value in
    [auth_code] and is answered 200, text/plain, "Authentication complete.
    You can close this window". *)
Theorem code_is_captured w path code codes :
  decoded path !! "code" = Some (code :: codes) →
  truthy (state (self w)) = false
  ∨ first_value (decoded path) "state" = state (self w) →
  ∃ w', AuthCodeReceiver.do_GET path w = (Return tt, w')
        ∧ auth_code (self w') = Some code
        ∧ out w' = out w ++ [Respond 200 "text/plain"
                               "Authentication complete. You can close this window"].
Proof.
  intros Hcode Hstate. eexists. split; [by eapply do_GET_capture|]. done.
Qed.

Lemma code_is_captured_witness :
  ∃ w', AuthCodeReceiver.do_GET "/?text=Login&code=abc123&link=x&state=xyz&code=other"
          (listening (Some "xyz") []) = (Return tt, w')
        ∧ auth_code (self w') = Some "abc123"
        ∧ out w' = [Respond 200 "text/plain"
                      "Authentication complete. You can close this window"].
Proof.
  apply (code_is_captured (listening (Some "xyz") [])
           "/?text=Login&code=abc123&link=x&state=xyz&code=other" "abc123" ["other"]).
  - vm_compute. reflexivity.
  - right. vm_compute. reflexivity.
Defined.

(** C6. A request without [code] that carries [text] and [link] is answered
    200, text/html, with the body [<a href=L>T</a><hr/>H]: L and T the
    first [link] and [text] values, H the first [exit_hint] value as it
    is, or nothing when there is none.  That response is the one thing the
    request adds to the output, and the server object is left as it was. *)
Theorem landing_page_is_rendered w path link links text texts :
  decoded path !! "code" = None →
  decoded path !! "link" = Some (link :: links) →
  decoded path !! "text" = Some (text :: texts) →
  ∃ w', AuthCodeReceiver.do_GET path w = (Return tt, w')
        ∧ self w' = self w
        ∧ out w'
          = out w ++ [Respond 200 "text/html"
                        ("<a href=" +:+ link +:+ ">" +:+ text +:+ "</a><hr/>" +:+
                         match decoded path !! "exit_hint" with
                         | Some (hint :: _) => hint
                         | _ => ""
                         end)].
Proof.
  intros Hcode Hlink Htext. eexists. split; [by eapply do_GET_landing|].
  split; [done|]. simpl. unfold first_value.
  by destruct (decoded path !! "exit_hint") as [[|? ?]|].
Qed.

Lemma landing_page_is_rendered_witness :
  ∃ w', AuthCodeReceiver.do_GET "/?text=Login&link=http://example.com/auth&exit_hint=<b>bye</b>"
          (listening None []) = (Return tt, w')
        ∧ self w' = self (listening None [])
        ∧ out w'
          = [Respond 200 "text/html"
               "<a href=http://example.com/auth>Login</a><hr/><b>bye</b>"].
Proof.
  apply (landing_page_is_rendered (listening None [])
           "/?text=Login&link=http://example.com/auth&exit_hint=<b>bye</b>"
           "http://example.com/auth" [] "Login" []).
  - vm_compute. reflexivity.
  - vm_compute. reflexivity.
  - vm_compute. reflexivity.
Defined.

(** C7. A request with neither [code] nor both of [text] and [link] is
    answered 200, text/plain, "This web service serves your redirect_uri",
    and the server object is left as it was. *)
Theorem default_page_is_served w path :
  decoded path !! "code" = None →
  decoded path !! "text" = None ∨ decoded path !! "link" = None →
  ∃ w', AuthCodeReceiver.do_GET path w = (Return tt, w')
        ∧ self w' = self w
        ∧ inbox w' = inbox w
        ∧ out w' = out w ++ [Respond 200 "text/plain"
                               "This web service serves your redirect_uri"].
Proof.
  intros Hcode Hnot. eexists. split; [by apply do_GET_default|]. done.
Qed.

Lemma default_page_is_served_witness :
  ∃ w', AuthCodeReceiver.do_GET "/callback?text=Login&error=access_denied"
          (listening (Some "xyz") []) = (Return tt, w')
        ∧ self w' = self (listening (Some "xyz") [])
        ∧ inbox w' = []
        ∧ out w' = [Respond 200 "text/plain"
                      "This web service serves your redirect_uri"].
Proof.
  apply (default_page_is_served (listening (Some "xyz") [])
           "/callback?text=Login&error=access_denied").
  - vm_compute. reflexivity.
  - right. vm_compute. reflexivity.
Defined.

(** C3. [auth_code] goes from unset to set at most once in a session: the
    turn of the loop in which a request sets it is the last one, the loop
    returns in the very state that turn left (later deliveries unread,
    nothing more sent), and a whole call of [get_auth_code] records at most
    one capture. *)
Theorem code_is_set_at_most_once w :
  socket_open (self w) = true →
  auth_code (self w) = None →
  (∀ w1, handle_request w = (Return tt, w1) →
         auth_code (self w1) ≠ None →
         while_not_auth_code w = (Return tt, w1)
         ∧ get_auth_code w = (Return (auth_code (self w1)), closed w1))
  ∧ ∃ extra, out (get_auth_code w).2 = out w ++ extra
             ∧ (captures extra ≤ 1)%nat
             ∧ (captures extra = 1%nat ↔ auth_code (self (get_auth_code w).2) ≠ None).
Proof.
  intros Hopen Hfresh. split.
  - intros w1 Hturn Hset.
    assert (truthy (auth_code (self w1)) = true) as Htruthy.
    { pose proof (handle_request_turn w Hopen) as Ht. rewrite Hturn in Ht.
      simpl in Ht. inversion Ht; simplify_eq/=; congruence. }
    assert (while_not_auth_code w = (Return tt, w1)) as Hloop.
    { rewrite loop_unfold, Hfresh. simpl. rewrite Hturn. by apply loop_captured. }
    split; [done|]. by rewrite get_auth_code_eq, Hloop.
  - destruct (get_auth_code_summary w Hopen Hfresh)
      as (extra & Hout & _ & Hcode & Hcap & _).
    exists extra. split; [done|]. rewrite Hcode, Hcap.
    destruct (auth_code (self (while_not_auth_code w).2)); split; try done; lia.
Qed.

Lemma code_is_set_at_most_once_witness :
  while_not_auth_code (listening None [Request "/?code=abc123"; Request "/?code=other"])
  = (Return tt,
     emit completed
       (set_auth_code (Some "abc123")
          (listening None [Request "/?code=other"]))).
Proof.
  apply (code_is_set_at_most_once
           (listening None [Request "/?code=abc123"; Request "/?code=other"])
           eq_refl eq_refl).
  - vm_compute. reflexivity.
  - vm_compute. discriminate.
Defined.



(** C9. A [code] parameter with a blank value does not reach the handler:
    [?code=] is answered like a request without parameters, and neither
    sets [auth_code] nor sends the completion message.  The handler only
    ever stores a non-empty string in [auth_code], so that in a session
    the test [not self.auth_code] of the loop fails exactly when a code
    has been captured, and a code that [get_auth_code] returns is never
    empty. *)
Theorem blank_code_is_no_code :
  (∀ w, ∃ w', AuthCodeReceiver.do_GET "/?code=" w = (Return tt, w')
              ∧ self w' = self w
              ∧ out w' = out w ++ [Respond 200 "text/plain"
                                     "This web service serves your redirect_uri"])
  ∧ (∀ w path r w',
       AuthCodeReceiver.do_GET path w = (r, w') →
       auth_code (self w') = auth_code (self w)
       ∨ ∃ a c, auth_code (self w') = Some (String a c))
  ∧ ∀ w, socket_open (self w) = true →
         auth_code (self w) = None →
         (∀ r w', handle_request w = (r, w') →
                  truthy (auth_code (self w')) = true ↔ auth_code (self w') ≠ None)
         ∧ (∀ code, (get_auth_code w).1 = Return (Some code) →
                    code ≠ "" ∧ auth_code (self (get_auth_code w).2) = Some code).
Proof.
  split; [|split].
  - intros w. eexists. split; [apply do_GET_default; [|left]; by vm_compute|]. done.
  - intros w path r w' Hget.
    destruct (do_GET_cases w path)
      as [(_ & ct & body & _ & Heq)|[(a & c & codes & _ & _ & Heq)|(_ & _ & _ & Heq)]];
      rewrite Heq in Hget; injection Hget as <- <-; simpl; eauto.
  - intros w Hopen Hfresh. split.
    + intros r w' Hturn. pose proof (handle_request_turn w Hopen) as Ht.
      rewrite Hturn in Ht. simpl in Ht.
      inversion Ht; simplify_eq/=; rewrite ?Hfresh; by split.
    + intros code. pose proof (loop_terminal w Hopen Hfresh) as Hterm.
      rewrite get_auth_code_eq.
      destruct (while_not_auth_code w) as [r w1]. simpl in Hterm.
      destruct Hterm as [pre a c -> Hc Ho Hout Hpre|pre -> Hc Ho Hout Hpre
                        |pre -> Hc Ho Hout Hpre];
        simpl; rewrite ?Hc; [|done..]. by intros [= <-].
Qed.

Lemma blank_code_is_no_code_witness :
  (∃ w', AuthCodeReceiver.do_GET "/?code=" (listening None [Request "/?code=a"])
         = (Return tt, w')
         ∧ self w' = self (listening None [Request "/?code=a"])
         ∧ out w' = [Respond 200 "text/plain" "This web service serves your redirect_uri"])
  ∧ "a" ≠ ""
  ∧ auth_code (self (get_auth_code (listening None [Request "/?code="; Request "/?code=a"])).2)
    = Some "a".
Proof.
  split.
  - apply (proj1 blank_code_is_no_code (listening None [Request "/?code=a"])).
  - apply (proj2 (proj2 (proj2 blank_code_is_no_code)
                    (listening None [Request "/?code="; Request "/?code=a"])
                    eq_refl eq_refl) "a").
    reflexivity.
Defined.

(** ** Opening the browser and starting the listener *)


Lemma browse_eq h target l d :
  default_controller h = Some d →
  browse h (Some target) l
  = (Return tt,
     l ++ [Log "INFO" ("Please open a browser on THIS device to visit: " +:+ target);
           Open (preferred h popular d) (Some target)]).
Proof.
  intros Hd. unfold browse, webbrowser.open. run_monad. rewrite Hd.
  repeat case_bool_decide; by rewrite <- app_assoc.
Qed.

Lemma browse_fails h uri l :
  default_controller h = None → browse h uri l = (Raise webbrowser_Error, l).
Proof. intros Hd. unfold browse. run_monad. by rewrite Hd. Qed.

Lemma opening_eq h port uri text d l :
  default_controller h = Some d →
  truthy text = true ∨ is_Some uri →
  ((if truthy text then
      logger "WARNING" (exit_hint port);; browse h (Some (page port uri text))
    else browse h uri) : M (list effect) unit) l
  = (Return tt, l ++ opening h port uri text d).
Proof.
  intros Hd Huri. unfold opening. destruct (truthy text).
  - run_monad. rewrite (browse_eq _ _ _ d) by done. by rewrite <- app_assoc.
  - destruct Huri as [|[u ->]]; [done|]. by apply browse_eq.
Qed.

Lemma obtain_auth_code_eq h port uri text st l d :
  default_controller h = Some d →
  truthy text = true ∨ is_Some uri →
  obtain_auth_code h port uri text st l
  = if bool_decide (port < 0 ∨ 65535 < port)
    then (Raise OverflowError, l ++ opening h port uri text d ++ [Bind "" port; Close])
    else if bool_decide (port ∈ ports_in_use h)
    then (Raise IOError, l ++ opening h port uri text d ++ [Bind "" port; Close])
    else call h (Server (socket.getsockname h port) st None 300 true) get_auth_code
              (l ++ opening h port uri text d ++ [Bind "" port]).
Proof.
  intros Hd Huri. unfold obtain_auth_code.
  unfold mbind at 1. unfold M_bind at 1.
  rewrite (opening_eq _ _ _ _ d) by done.
  unfold __init__. run_monad.
  repeat case_bool_decide; by rewrite <- !app_assoc.
Qed.

(** The two ways the browser-opening step fails. *)
Lemma obtain_auth_code_without_controller h port uri text st l :
  default_controller h = None →
  obtain_auth_code h port uri text st l
  = (Raise webbrowser_Error,
     l ++ (if truthy text then [Log "WARNING" (exit_hint port)] else [])).
Proof.
  intros Hd. unfold obtain_auth_code. destruct (truthy text); run_monad;
    rewrite browse_fails by done; by rewrite ?app_nil_r.
Qed.

Lemma obtain_auth_code_without_uri h port uri text st l d :
  default_controller h = Some d →
  ¬ (truthy text = true ∨ is_Some uri) →
  obtain_auth_code h port uri text st l
  = (Raise TypeError,
     l ++ [Log "INFO" "Please open a browser on THIS device to visit: None"]).
Proof.
  intros Hd Huri. unfold obtain_auth_code.
  destruct (truthy text); [by destruct Huri; left|].
  destruct uri as [u|]; [destruct Huri; right; by eexists|].
  unfold browse, webbrowser.open. run_monad. rewrite Hd.
  by repeat case_bool_decide.
Qed.

Lemma call_extends h s l :
  socket_open s = true → auth_code s = None →
  ∃ session, (call h s get_auth_code l).2 = l ++ session.
Proof.
  intros Hopen Hfresh. unfold call.
  destruct (get_auth_code_summary (World s (arrivals h) l) Hopen Hfresh)
    as (extra & Hout & _).
  destruct (get_auth_code _) as [r w2]. by exists extra.
Qed.







(** C10. [obtain_auth_code] opens the browser, at [auth_uri] or at the
    landing page when [text] is given, before it builds the listener: in
    every run that gets as far as opening the browser the bind comes right
    after the opening step, and when the port is taken the [IOError] of the
    bind reaches the caller with the browser already opened. *)
Theorem browser_opens_before_bind h port uri text request_state l d :
  default_controller h = Some d →
  truthy text = true ∨ is_Some uri →
  last (opening h port uri text d)
  = Some (Open (preferred h popular d)
               (if truthy text then Some (page port uri text) else uri))
  ∧ (∃ session, (obtain_auth_code h port uri text request_state l).2
                = l ++ opening h port uri text d ++ Bind "" port :: session)
  ∧ (0 ≤ port ≤ 65535 →
     port ∈ ports_in_use h →
     obtain_auth_code h port uri text request_state l
     = (Raise IOError, l ++ opening h port uri text d ++ [Bind "" port; Close])).
Proof.
  intros Hd Huri. split; [|split].
  - unfold opening. by destruct (truthy text).
  - rewrite (obtain_auth_code_eq _ _ _ _ _ _ d) by done.
    repeat case_bool_decide; simpl; [by exists [Close]..|].
    destruct (call_extends h (Server (socket.getsockname h port) request_state
                                     None 300 true)
                (l ++ opening h port uri text d ++ [Bind "" port]))
      as [session ->]; [done..|].
    exists session. by rewrite <- !app_assoc.
  - intros Hrange Hbusy. rewrite (obtain_auth_code_eq _ _ _ _ _ _ d) by done.
    rewrite bool_decide_eq_false_2 by lia. by rewrite bool_decide_eq_true_2.
Qed.

Lemma browser_opens_before_bind_witness :
  obtain_auth_code (Host (Some "xdg-open") ["firefox"] [8000] []) 8000
                   (Some "https://login.example/authorize") (Some "Sign in")
                   (Some "xyz") []
  = (Raise IOError,
     [Log "WARNING" "Visit http://localhost:8000?auth_code=exit to abort";
      Log "INFO" ("Please open a browser on THIS device to visit: " +:+
                  page 8000 (Some "https://login.example/authorize") (Some "Sign in"));
      Open "firefox"
           (Some (page 8000 (Some "https://login.example/authorize") (Some "Sign in")));
      Bind "" 8000;
      Close]).
Proof.
  apply (browser_opens_before_bind (Host (Some "xdg-open") ["firefox"] [8000] []) 8000
           (Some "https://login.example/authorize") (Some "Sign in") (Some "xyz") []
           "xdg-open" eq_refl).
  - by left.
  - lia.
  - apply (bool_decide_unpack _). vm_compute. exact I.
Defined.


(** * Further properties of the module *)

(** ** Splitting and the query of a path *)

Lemma split1_absent sep s :
  occurs sep s = false → urllib.split1 sep s = (s, None).
Proof.
  induction s as [|a s IH]; [done|]. simpl. intros Hno.
  apply orb_false_iff in Hno as [Ha Hs]. apply bool_decide_eq_false in Ha.
  rewrite decide_False by done. by rewrite IH.
Qed.

Lemma split1_first sep p q :
  occurs sep p = false → urllib.split1 sep (p +:+ String sep q) = (p, Some q).
Proof.
  induction p as [|a p IH]; simpl; intros Hno.
  - by rewrite decide_True.
  - apply orb_false_iff in Hno as [Ha Hp]. apply bool_decide_eq_false in Ha.
    rewrite decide_False by done. by rewrite IH.
Qed.

Lemma split_absent sep s :
  occurs sep s = false → urllib.split sep s = [s].
Proof.
  induction s as [|a s IH]; [done|]. simpl. intros Hno.
  apply orb_false_iff in Hno as [Ha Hs]. apply bool_decide_eq_false in Ha.
  rewrite decide_False by done. by rewrite IH.
Qed.

Lemma split_first sep p q :
  occurs sep p = false →
  urllib.split sep (p +:+ String sep q) = p :: urllib.split sep q.
Proof.
  induction p as [|a p IH]; simpl; intros Hno.
  - by rewrite decide_True.
  - apply orb_false_iff in Hno as [Ha Hp]. apply bool_decide_eq_false in Ha.
    rewrite decide_False by done. by rewrite IH.
Qed.

Lemma string_app_assoc (s1 s2 s3 : string) : (s1 +:+ s2) +:+ s3 = s1 +:+ s2 +:+ s3.
Proof.
  induction s1 as [|a s1 IH]; [done|].
  change (String a ((s1 +:+ s2) +:+ s3) = String a (s1 +:+ s2 +:+ s3)). by f_equal.
Qed.

Lemma occurs_app c s1 s2 : occurs c (s1 +:+ s2) = occurs c s1 || occurs c s2.
Proof. induction s1 as [|a s1 IH]; [done|]. simpl. by rewrite IH, orb_assoc. Qed.

Lemma urlparse_query_absent path :
  occurs "?" path = false → urllib.urlparse_query path = "".
Proof.
  intros Hno. unfold urllib.urlparse_query.
  destruct (decide (occurs "#" path = false)) as [Hf|Hf].
  - rewrite (split1_absent "#") by done. simpl. by rewrite split1_absent.
  - assert (∀ s, occurs "?" s = false →
                 occurs "?" (urllib.split1 "#" s).1 = false) as Hcut.
    { induction s as [|a s IH]; [done|]. simpl. intros Hs.
      apply orb_false_iff in Hs as [Ha Hs].
      destruct (decide (a = "#"%char)); [done|].
      specialize (IH Hs). destruct (urllib.split1 "#" s) as [h t].
      simpl in *. by rewrite Ha. }
    by rewrite split1_absent by by apply Hcut.
Qed.

Lemma urlparse_query_app prefix q :
  occurs "?" prefix = false → occurs "#" prefix = false → occurs "#" q = false →
  urllib.urlparse_query (prefix +:+ String "?" q) = q.
Proof.
  intros Hq Hf Hfq. unfold urllib.urlparse_query.
  rewrite (split1_absent "#"); simpl.
  - by rewrite split1_first.
  - rewrite occurs_app. simpl. by rewrite Hf, Hfq.
Qed.

(** ** Encoding and decoding *)

Lemma quote_plus_cons c s :
  urllib.quote_plus (String c s) = urllib.quote_plus (String c "") +:+ urllib.quote_plus s.
Proof. simpl. by repeat case_match. Qed.

Lemma hexdigit_hexval m :
  (m < 16)%N →
  urllib.hexval (urllib.hexdigit m) = Some m
  ∧ ∀ x, x ∈ ["&"; "="; "#"; "?"; "+"]%char → bool_decide (urllib.hexdigit m = x) = false.
Proof.
  intros Hm.
  assert (m ∈ [0; 1; 2; 3; 4; 5; 6; 7; 8; 9; 10; 11; 12; 13; 14; 15]%N) as Hin.
  { apply (list_elem_of_lookup_2 _ (N.to_nat m)).
    rewrite <- (N2Nat.id m) at 2. generalize (N.to_nat m) (N2Nat.id m).
    intros n Hn. assert (n < 16)%nat as Hlt by lia. clear - Hlt.
    do 16 (destruct n as [|n]; [done|]). lia. }
  split.
  - repeat (apply elem_of_cons in Hin as [->|Hin]); [done..|by apply elem_of_nil in Hin].
  - intros x Hx.
    repeat (apply elem_of_cons in Hx as [->|Hx]); [..|by apply elem_of_nil in Hx];
      repeat (apply elem_of_cons in Hin as [->|Hin]);
      first [done | by apply elem_of_nil in Hin].
Qed.

Lemma is_safe_not_reserved c x :
  urllib.is_safe c = true → x ∈ ["&"; "="; "#"; "?"; "+"; "%"]%char →
  bool_decide (c = x) = false.
Proof.
  intros Hsafe Hx. apply bool_decide_eq_false. intros ->.
  repeat (apply elem_of_cons in Hx as [->|Hx]); [done..|by apply elem_of_nil in Hx].
Qed.

Lemma quote_plus_char_reserved c x :
  x ∈ ["&"; "="; "#"; "?"]%char → occurs x (urllib.quote_plus (String c "")) = false.
Proof.
  intros Hx.
  assert (x ∈ ["&"; "="; "#"; "?"; "+"]%char ∧ x ∈ ["&"; "="; "#"; "?"; "+"; "%"]%char
          ∧ bool_decide ("+"%char = x) = false ∧ bool_decide ("%"%char = x) = false)
    as (Hx5 & Hx6 & Hplus & Hpct).
  { repeat (apply elem_of_cons in Hx as [->|Hx]); [..|by apply elem_of_nil in Hx];
      (split; [in_list|split; [in_list|done]]). }
  simpl. destruct (decide (c = " "%char)) as [Hsp|Hsp];
    [|destruct (urllib.is_safe c) eqn:Hsafe]; simpl.
  - by rewrite Hplus.
  - by rewrite (is_safe_not_reserved c x).
  - pose proof (N_ascii_bounded c) as Hb.
    destruct (hexdigit_hexval (N_of_ascii c / 16)) as [_ Hh];
      [apply N.Div0.div_lt_upper_bound; exact Hb|].
    destruct (hexdigit_hexval (N_of_ascii c mod 16)) as [_ Hl];
      [by apply N.mod_upper_bound|].
    by rewrite Hpct, Hh, Hl.
Qed.

Lemma quote_plus_reserved s x :
  x ∈ ["&"; "="; "#"; "?"]%char → occurs x (urllib.quote_plus s) = false.
Proof.
  intros Hx. induction s as [|c s IH]; [done|].
  by rewrite quote_plus_cons, occurs_app, quote_plus_char_reserved, IH.
Qed.

Lemma unquote_quote_char c t :
  urllib.unquote (urllib.replace_plus (urllib.quote_plus (String c "") +:+ t))
  = String c (urllib.unquote (urllib.replace_plus t)).
Proof.
  simpl urllib.quote_plus.
  destruct (decide (c = " "%char)) as [Hsp|Hsp]; [|destruct (urllib.is_safe c) eqn:Hsafe].
  - subst c. done.
  - pose proof (is_safe_not_reserved c "+" Hsafe) as Hplus.
    pose proof (is_safe_not_reserved c "%" Hsafe) as Hpct.
    apply bool_decide_eq_false in Hplus; [|in_list].
    apply bool_decide_eq_false in Hpct; [|in_list].
    simpl. destruct (decide (c = "+"%char)); [done|].
    by destruct (decide (c = "%"%char)).
  - pose proof (N_ascii_bounded c) as Hb.
    destruct (hexdigit_hexval (N_of_ascii c / 16)) as [Hh Hh'];
      [apply N.Div0.div_lt_upper_bound; exact Hb|].
    destruct (hexdigit_hexval (N_of_ascii c mod 16)) as [Hl Hl'];
      [by apply N.mod_upper_bound|].
    pose proof (Hh' "+"%char) as Hhp. pose proof (Hl' "+"%char) as Hlp.
    apply bool_decide_eq_false in Hhp; [|in_list].
    apply bool_decide_eq_false in Hlp; [|in_list].
    simpl.
    rewrite !(decide_False (P := urllib.hexdigit _ = "+"%char)) by done.
    rewrite Hh, Hl, <- N.Div0.div_mod.
    by rewrite ascii_N_embedding.
Qed.

(** Decoding undoes encoding. *)
Lemma unquote_quote_plus s :
  urllib.unquote (urllib.replace_plus (urllib.quote_plus s)) = s.
Proof.
  induction s as [|c s IH]; [done|].
  by rewrite quote_plus_cons, unquote_quote_char, IH.
Qed.

Lemma quote_plus_nonblank c s : urllib.quote_plus (String c s) ≠ "".
Proof. simpl. by repeat case_match. Qed.

Lemma parse_field_encoded k v :
  urllib.parse_field (urllib.quote_plus k +:+ "=" +:+ urllib.quote_plus v)
  = if decide (v = "") then None else Some (k, v).
Proof.
  unfold urllib.parse_field.
  change ("=" +:+ urllib.quote_plus v) with (String "=" (urllib.quote_plus v)).
  rewrite split1_first by (apply quote_plus_reserved; in_list).
  destruct v as [|c v]; [done|]. rewrite decide_False by done.
  destruct (urllib.quote_plus (String c v)) eqn:Hq; [by apply quote_plus_nonblank in Hq|].
  by rewrite <- Hq, !unquote_quote_plus.
Qed.

(** What [parse_qsl] reads back from [urlencode]: the items whose value is
    not blank. *)
Lemma parse_qsl_urlencode items :
  urllib.parse_qsl (urllib.urlencode items) = filter (λ kv, kv.2 ≠ "") items.
Proof.
  unfold urllib.parse_qsl, urllib.urlencode.
  induction items as [|[k v] items IH]; [done|].
  assert (occurs "&" (urllib.quote_plus k +:+ "=" +:+ urllib.quote_plus v) = false)
    as Hamp.
  { rewrite !occurs_app, !quote_plus_reserved by in_list. done. }
  destruct items as [|kv items].
  - simpl. rewrite split_absent by done. simpl. rewrite parse_field_encoded.
    rewrite filter_cons. simpl. by repeat case_decide.
  - remember (kv :: items) as tl eqn:Htl.
    assert (urllib.join "&"
              (map (λ kv, urllib.quote_plus kv.1 +:+ "=" +:+ urllib.quote_plus kv.2)
                   ((k, v) :: tl))
            = (urllib.quote_plus k +:+ "=" +:+ urllib.quote_plus v) +:+
              String "&" (urllib.join "&"
                (map (λ kv, urllib.quote_plus kv.1 +:+ "=" +:+ urllib.quote_plus kv.2)
                     tl))) as -> by by rewrite Htl.
    rewrite split_first by done.
    rewrite (filter_cons _ (k, v)).
    change (omap urllib.parse_field (?x :: ?l))
      with (match urllib.parse_field x with
            | Some y => y :: omap urllib.parse_field l
            | None => omap urllib.parse_field l
            end).
    rewrite parse_field_encoded, IH. simpl. by repeat case_decide.
Qed.

Lemma urlencode_reserved items x :
  x ∈ ["#"; "?"]%char → occurs x (urllib.urlencode items) = false.
Proof.
  intros Hx.
  assert (x ∈ ["&"; "="; "#"; "?"]%char ∧ bool_decide ("="%char = x) = false
          ∧ bool_decide ("&"%char = x) = false) as (Hx4 & Heq & Hamp).
  { repeat (apply elem_of_cons in Hx as [->|Hx]); [..|by apply elem_of_nil in Hx];
      (split; [in_list|done]). }
  unfold urllib.urlencode.
  induction items as [|[k v] items IH]; [done|].
  assert (occurs x (urllib.quote_plus k +:+ "=" +:+ urllib.quote_plus v) = false) as Hf.
  { rewrite !occurs_app, !quote_plus_reserved by done. simpl. by rewrite Heq. }
  destruct items as [|kv items]; [done|].
  remember (kv :: items) as tl eqn:Htl.
  assert (urllib.join "&"
            (map (λ kv, urllib.quote_plus kv.1 +:+ "=" +:+ urllib.quote_plus kv.2)
                 ((k, v) :: tl))
          = (urllib.quote_plus k +:+ "=" +:+ urllib.quote_plus v) +:+
            String "&" (urllib.join "&"
              (map (λ kv, urllib.quote_plus kv.1 +:+ "=" +:+ urllib.quote_plus kv.2)
                   tl))) as -> by by rewrite Htl.
  rewrite occurs_app, Hf. simpl. by rewrite Hamp, IH.
Qed.

(** The decoded query of a path that ends in an encoded list of items. *)
Lemma decoded_urlencode prefix items :
  occurs "?" prefix = false → occurs "#" prefix = false →
  decoded (prefix +:+ "?" +:+ urllib.urlencode items)
  = foldl urllib.add_pair ∅ (filter (λ kv, kv.2 ≠ "") items).
Proof.
  intros Hq Hf. unfold decoded.
  change (prefix +:+ "?" +:+ urllib.urlencode items)
    with (prefix +:+ String "?" (urllib.urlencode items)).
  rewrite urlparse_query_app by (done || (apply urlencode_reserved; in_list)).
  unfold urllib.parse_qs. by rewrite parse_qsl_urlencode.
Qed.

Lemma truthy_str v : truthy v = true → str v ≠ "".
Proof. by destruct v as [[|a s]|]. Qed.

Lemma exit_hint_nonblank listen_port : exit_hint listen_port ≠ "".
Proof. done. Qed.

Lemma decoded_landing_items prefix text link hint :
  occurs "?" prefix = false → occurs "#" prefix = false →
  text ≠ "" → link ≠ "" → hint ≠ "" →
  decoded (prefix +:+ "?" +:+
           urllib.urlencode [("text", text); ("link", link); ("exit_hint", hint)])
  = <["exit_hint" := [hint]]> (<["link" := [link]]> (<["text" := [text]]> ∅)).
Proof.
  intros Hq Hf Htext Hlink Hhint. rewrite decoded_urlencode by done.
  rewrite !filter_cons_True by done. rewrite filter_nil.
  simpl. unfold urllib.add_pair. simpl.
  rewrite lookup_empty, lookup_insert_ne, lookup_empty by done.
  by rewrite !lookup_insert_ne, lookup_empty by done.
Qed.

Lemma decoded_redirect_items prefix code st :
  occurs "?" prefix = false → occurs "#" prefix = false →
  code ≠ "" → st ≠ "" →
  decoded (prefix +:+ "?" +:+ urllib.urlencode [("code", code); ("state", st)])
  = <["state" := [st]]> (<["code" := [code]]> ∅).
Proof.
  intros Hq Hf Hcode Hst. rewrite decoded_urlencode by done.
  rewrite !filter_cons_True by done. rewrite filter_nil.
  simpl. unfold urllib.add_pair. simpl.
  by rewrite lookup_empty, lookup_insert_ne, lookup_empty.
Qed.

(** The landing page, as the handler renders it from its encoded form. *)
Lemma do_GET_encoded_landing w prefix text link hint :
  occurs "?" prefix = false → occurs "#" prefix = false →
  text ≠ "" → link ≠ "" → hint ≠ "" →
  AuthCodeReceiver.do_GET
    (prefix +:+ "?" +:+
     urllib.urlencode [("text", text); ("link", link); ("exit_hint", hint)]) w
  = (Return tt,
     emit (Respond 200 "text/html"
             ("<a href=" +:+ link +:+ ">" +:+ text +:+ "</a><hr/>" +:+ hint)) w).
Proof.
  intros Hq Hf Htext Hlink Hhint.
  erewrite do_GET_landing; rewrite ?decoded_landing_items by done.
  - unfold first_value. by rewrite lookup_insert_eq.
  - by rewrite !lookup_insert_ne, lookup_empty by done.
  - rewrite lookup_insert_ne by done. apply lookup_insert_eq.
  - rewrite !lookup_insert_ne by done. apply lookup_insert_eq.
Qed.


(** X3. The landing page URL that [obtain_auth_code] builds is
    [http://localhost:<port>?] followed by the [urlencode] of [text], [link]
    and [exit_hint]; requested from the listener as [/?] and that query, it is
    rendered from the very values it was built from: the one response added
    to the output is 200, text/html, an anchor that points at [auth_uri], is
    labelled with [text] and is followed by the exit hint; the server object
    is left as it was. *)
Theorem landing_page_shows_link w listen_port auth_uri text :
  truthy text = true →
  str auth_uri ≠ "" →
  page listen_port auth_uri text
  = "http://localhost:" +:+ pretty listen_port +:+ "?" +:+
    urllib.urlencode [("text", str text); ("link", str auth_uri);
                      ("exit_hint", exit_hint listen_port)]
  ∧ ∃ w',
      AuthCodeReceiver.do_GET
        ("/" +:+ "?" +:+
         urllib.urlencode [("text", str text); ("link", str auth_uri);
                           ("exit_hint", exit_hint listen_port)]) w
      = (Return tt, w')
      ∧ self w' = self w
      ∧ out w'
        = out w ++ [Respond 200 "text/html"
                      ("<a href=" +:+ str auth_uri +:+ ">" +:+ str text +:+ "</a><hr/>" +:+
                       "Visit http://localhost:" +:+ pretty listen_port +:+
                       "?auth_code=exit to abort")].
Proof.
  intros Htext Hlink. split; [done|].
  eexists. split.
  { apply (do_GET_encoded_landing w "/");
      [done|done|by apply truthy_str|done|apply exit_hint_nonblank]. }
  done.
Qed.

(** X4. When [auth_uri] is the empty string the [link] of the landing page
    URL is blank and the decoder drops it: the request gets the default
    message, 200 and text/plain, not a landing page, and the server object
    is left as it was. *)
Theorem blank_link_gets_default w listen_port auth_uri text :
  str auth_uri = "" →
  ∃ w',
    AuthCodeReceiver.do_GET
      ("/" +:+ "?" +:+
       urllib.urlencode [("text", str text); ("link", str auth_uri);
                         ("exit_hint", exit_hint listen_port)]) w
    = (Return tt, w')
    ∧ self w' = self w
    ∧ out w'
      = out w ++ [Respond 200 "text/plain" "This web service serves your redirect_uri"].
Proof.
  intros Hlink. pose proof (exit_hint_nonblank listen_port) as Hhint.
  enough (AuthCodeReceiver.do_GET
            ("/" +:+ "?" +:+
             urllib.urlencode [("text", str text); ("link", str auth_uri);
                               ("exit_hint", exit_hint listen_port)]) w
          = (Return tt, emit served w)) as Hget.
  { eexists. split; [exact Hget|]. done. }
  apply do_GET_default; [|right]; rewrite decoded_urlencode by done; rewrite Hlink.
  - destruct (decide (str text = "")) as [->|Htext].
    + rewrite !filter_cons_False, filter_cons_True, filter_nil by (simpl; auto).
      simpl. unfold urllib.add_pair. simpl.
      by rewrite lookup_empty, lookup_insert_ne, lookup_empty.
    + rewrite filter_cons_True, filter_cons_False, filter_cons_True, filter_nil
        by (simpl; auto).
      simpl. unfold urllib.add_pair. simpl.
      rewrite lookup_empty, lookup_insert_ne, lookup_empty by done.
      by rewrite !lookup_insert_ne, lookup_empty.
  - destruct (decide (str text = "")) as [->|Htext].
    + rewrite !filter_cons_False, filter_cons_True, filter_nil by (simpl; auto).
      simpl. unfold urllib.add_pair. simpl.
      by rewrite lookup_empty, lookup_insert_ne, lookup_empty.
    + rewrite filter_cons_True, filter_cons_False, filter_cons_True, filter_nil
        by (simpl; auto).
      simpl. unfold urllib.add_pair. simpl.
      rewrite lookup_empty, lookup_insert_ne, lookup_empty by done.
      by rewrite !lookup_insert_ne, lookup_empty.
Qed.

Lemma blank_link_gets_default_witness :
  ∃ w',
    AuthCodeReceiver.do_GET
      ("/" +:+ "?" +:+
       urllib.urlencode [("text", "Sign in"); ("link", "");
                         ("exit_hint", exit_hint 8000)]) (listening None [])
    = (Return tt, w')
    ∧ self w' = self (listening None [])
    ∧ out w'
      = [] ++ [Respond 200 "text/plain" "This web service serves your redirect_uri"].
Proof.
  apply (blank_link_gets_default (listening None []) 8000 (Some "") (Some "Sign in")).
  reflexivity.
Defined.

Lemma landing_page_shows_link_witness :
  page 8000 (Some "https://login.example/authorize?client_id=42&scope=a b")
       (Some "Sign in <here>")
  = "http://localhost:" +:+ pretty 8000 +:+ "?" +:+
    urllib.urlencode
      [("text", "Sign in <here>");
       ("link", "https://login.example/authorize?client_id=42&scope=a b");
       ("exit_hint", exit_hint 8000)]
  ∧ ∃ w',
      AuthCodeReceiver.do_GET
        ("/" +:+ "?" +:+
         urllib.urlencode
           [("text", "Sign in <here>");
            ("link", "https://login.example/authorize?client_id=42&scope=a b");
            ("exit_hint", exit_hint 8000)]) (listening None [])
      = (Return tt, w')
      ∧ self w' = self (listening None [])
      ∧ out w'
        = [] ++ [Respond 200 "text/html"
                   ("<a href=" +:+ "https://login.example/authorize?client_id=42&scope=a b"
                    +:+ ">" +:+ "Sign in <here>" +:+ "</a><hr/>" +:+
                    "Visit http://localhost:" +:+ pretty 8000 +:+
                    "?auth_code=exit to abort")].
Proof.
  apply (landing_page_shows_link (listening None []) 8000
           (Some "https://login.example/authorize?client_id=42&scope=a b")
           (Some "Sign in <here>")); try reflexivity.
  simpl. discriminate.
Defined.

(** X5. A redirect whose query is the encoding of a code and a state is
    decoded before use: a server that expects a state stores exactly that
    code when the decoded state is the expected one, and raises
    otherwise. *)
Theorem encoded_redirect_is_decoded w prefix code st :
  occurs "?" prefix = false →
  occurs "#" prefix = false →
  code ≠ "" →
  st ≠ "" →
  truthy (state (self w)) = true →
  AuthCodeReceiver.do_GET
    (prefix +:+ "?" +:+ urllib.urlencode [("code", code); ("state", st)]) w
  = if decide (state (self w) = Some st)
    then (Return tt, emit completed (set_auth_code (Some code) w))
    else (Raise (ValueError "State does not match"), w).
Proof.
  intros Hq Hf Hcode Hst Htruthy.
  pose proof (decoded_redirect_items prefix code st Hq Hf Hcode Hst) as Hdec.
  case_decide as Hsame.
  - eapply do_GET_capture; rewrite Hdec.
    + rewrite lookup_insert_ne by done. apply lookup_insert_eq.
    + right. unfold first_value. by rewrite lookup_insert_eq.
  - eapply do_GET_mismatch; rewrite ?Hdec; [|done|].
    + rewrite lookup_insert_ne by done. apply lookup_insert_eq.
    + unfold first_value. rewrite lookup_insert_eq. congruence.
Qed.

Lemma encoded_redirect_is_decoded_witness :
  AuthCodeReceiver.do_GET "/?code=0.AX%2Fb%2Bc%3D%3D&state=a+b%26c" (listening (Some "a b&c") [])
  = (Return tt,
     emit completed (set_auth_code (Some "0.AX/b+c==") (listening (Some "a b&c") []))).
Proof.
  apply (encoded_redirect_is_decoded (listening (Some "a b&c") []) "/" "0.AX/b+c==" "a b&c");
    try reflexivity; discriminate.
Defined.

(** ** Whole sessions *)

(** A request that is merely answered leaves the loop where it was, one
    delivery and one response later. *)
Lemma loop_after_reply w path rest e :
  socket_open (self w) = true → auth_code (self w) = None →
  inbox w = Request path :: rest →
  AuthCodeReceiver.do_GET path (set_inbox rest w) = (Return tt, emit e (set_inbox rest w)) →
  while_not_auth_code w = while_not_auth_code (emit e (set_inbox rest w))
  ∧ get_auth_code w = get_auth_code (emit e (set_inbox rest w)).
Proof.
  intros Hopen Hfresh Hin Hget.
  assert (while_not_auth_code w = while_not_auth_code (emit e (set_inbox rest w))) as Hloop.
  { rewrite (loop_unfold w), Hfresh. simpl.
    by rewrite (handle_request_on_request _ path rest), Hget. }
  split; [done|]. by rewrite !get_auth_code_eq, Hloop.
Qed.

(** X6. Requests without a [code] never end a session: each one is
    answered once, and [get_auth_code] goes on with the deliveries that
    follow as if it had been called there. *)
Theorem codeless_requests_are_only_answered w paths deliveries :
  socket_open (self w) = true →
  auth_code (self w) = None →
  inbox w = map Request paths ++ deliveries →
  Forall (λ path, decoded path !! "code" = None) paths →
  ∃ replies,
    length replies = length paths
    ∧ Forall other_reply replies
    ∧ get_auth_code w = get_auth_code (World (self w) deliveries (out w ++ replies)).
Proof.
  intros Hopen Hfresh Hin Hall. revert w Hopen Hfresh Hin.
  induction Hall as [|path paths Hcode _ IH]; intros w Hopen Hfresh Hin.
  - exists []. split; [done|]. split; [done|].
    simpl in Hin. rewrite app_nil_r, <- Hin. by destruct w.
  - simpl in Hin.
    destruct (do_GET_cases (set_inbox (map Request paths ++ deliveries) w) path)
      as [(_ & ct & body & Hne & Hget)|[(a & c & codes & Hc & _)|([x Hc] & _)]];
      [|congruence..].
    destruct (loop_after_reply w path _ _ Hopen Hfresh Hin Hget) as [_ ->].
    destruct (IH (emit (Respond 200 ct body)
                    (set_inbox (map Request paths ++ deliveries) w)))
      as (replies & Hlen & Hreplies & ->); [done..|].
    exists (Respond 200 ct body :: replies). split; [simpl; by rewrite Hlen|].
    split; [by constructor|]. simpl. by rewrite <- app_assoc.
Qed.

Lemma codeless_requests_are_only_answered_witness :
  ∃ replies,
    length replies = 2%nat
    ∧ Forall other_reply replies
    ∧ get_auth_code (listening None [Request "/favicon.ico"; Request "/?text=a&link=b";
                                     Request "/?code=abc123"])
      = get_auth_code (World (new_server 8000 None) [Request "/?code=abc123"] ([] ++ replies)).
Proof.
  apply (codeless_requests_are_only_answered
           (listening None [Request "/favicon.ico"; Request "/?text=a&link=b";
                            Request "/?code=abc123"])
           ["/favicon.ico"; "/?text=a&link=b"] [Request "/?code=abc123"]);
    try reflexivity.
  repeat constructor.
Defined.

(** X7. The URL that the exit hint tells the user to visit in order to
    abort, [...?auth_code=exit], is answered with the default message and
    the listener keeps waiting: nothing in the handler reads
    [auth_code]. *)
Theorem exit_url_does_not_abort w prefix rest :
  socket_open (self w) = true →
  auth_code (self w) = None →
  occurs "?" prefix = false →
  occurs "#" prefix = false →
  inbox w = Request (prefix +:+ "?auth_code=exit") :: rest →
  handle_request w = (Return tt, emit served (set_inbox rest w))
  ∧ get_auth_code w = get_auth_code (emit served (set_inbox rest w)).
Proof.
  intros Hopen Hfresh Hq Hf Hin.
  assert (AuthCodeReceiver.do_GET (prefix +:+ "?auth_code=exit") (set_inbox rest w)
          = (Return tt, emit served (set_inbox rest w))) as Hget.
  { apply do_GET_default; [|left]; unfold decoded;
      change (prefix +:+ "?auth_code=exit") with (prefix +:+ String "?" "auth_code=exit");
      by rewrite urlparse_query_app. }
  split.
  - by rewrite (handle_request_on_request _ (prefix +:+ "?auth_code=exit") rest), Hget.
  - by eapply loop_after_reply.
Qed.

Lemma exit_url_does_not_abort_witness :
  get_auth_code (listening None [Request "/?auth_code=exit"; Request "/?code=abc123"])
  = get_auth_code (emit served (listening None [Request "/?code=abc123"])).
Proof.
  apply (exit_url_does_not_abort
           (listening None [Request "/?auth_code=exit"; Request "/?code=abc123"])
           "/" [Request "/?code=abc123"]); reflexivity.
Defined.

(** X8. An exception of [handle_request] that is neither a [ValueError]
    nor an [IOError] is not caught by the loop: it leaves [get_auth_code],
    and the call made by [obtain_auth_code], after the [finally] clause has
    closed the server, the later deliveries unread. *)
Theorem interruption_closes_and_propagates w rest :
  socket_open (self w) = true →
  auth_code (self w) = None →
  inbox w = Interrupt :: rest →
  get_auth_code w = (Raise KeyboardInterrupt, closed (set_inbox rest w))
  ∧ ∀ h, arrivals h = inbox w →
         call h (self w) get_auth_code (out w) = (Raise KeyboardInterrupt, out w ++ [Close]).
Proof.
  intros Hopen Hfresh Hin.
  assert (get_auth_code w = (Raise KeyboardInterrupt, closed (set_inbox rest w))) as Hret.
  { rewrite get_auth_code_eq, loop_unfold, Hfresh. simpl.
    unfold handle_request. by rewrite Hopen, Hin. }
  split; [done|]. intros h Harr. unfold call. rewrite Harr.
  replace (World (self w) (inbox w) (out w)) with w by by destruct w.
  by rewrite Hret.
Qed.

Lemma interruption_closes_and_propagates_witness :
  get_auth_code (listening None [Interrupt; Request "/?code=abc123"])
  = (Raise KeyboardInterrupt, closed (listening None [Request "/?code=abc123"])).
Proof.
  apply (interruption_closes_and_propagates
           (listening None [Interrupt; Request "/?code=abc123"])
           [Request "/?code=abc123"]); reflexivity.
Defined.

Lemma handle_timeout_eq w : handle_timeout w = (Return tt, closed w).
Proof. done. Qed.

(** Where a captured code comes from. *)
Lemma loop_origin w code :
  socket_open (self w) = true → auth_code (self w) = None →
  auth_code (self (while_not_auth_code w).2) = Some code →
  ∃ path, Request path ∈ inbox w
          ∧ first_value (decoded path) "code" = Some code
          ∧ (truthy (state (self w)) = true →
             first_value (decoded path) "state" = state (self w)).
Proof.
  remember (pending w) as n eqn:Hn. revert w Hn.
  induction n as [n IH] using lt_wf_ind. intros w -> Hopen Hfresh.
  rewrite loop_unfold, Hfresh. simpl.
  destruct (inbox w) as [|[path| |] rest] eqn:Hin.
  - unfold handle_request. rewrite Hopen, Hin, handle_timeout_eq.
    rewrite loop_closed by (simpl; by rewrite ?Hfresh). simpl. by rewrite Hfresh.
  - rewrite (handle_request_on_request w path rest) by done.
    destruct (do_GET_cases (set_inbox rest w) path)
      as [(_ & ct & body & _ & ->)
         |[(a & c & codes & Hc & Hstate & ->)|(_ & _ & _ & ->)]].
    + intros Hset.
      destruct (IH (pending (emit (Respond 200 ct body) (set_inbox rest w))))
        with (w := emit (Respond 200 ct body) (set_inbox rest w))
        as (path' & Hin' & Hfound); [|done..|].
      { unfold pending. simpl. rewrite Hin, Hopen. simpl. lia. }
      exists path'. split; [|done]. simpl in Hin'. by apply elem_of_cons; right.
    + rewrite loop_captured by done. simpl. intros [= <-].
      exists path. split; [by apply elem_of_cons; left|].
      unfold first_value at 1. rewrite Hc. split; [done|].
      intros Htruthy. destruct Hstate as [Hfalsy|Hsame]; [|done].
      simpl in Hfalsy. congruence.
    + simpl. intros Hset.
      destruct (IH (pending (set_inbox rest w))) with (w := set_inbox rest w)
        as (path' & Hin' & Hfound); [|done..|].
      { unfold pending. simpl. rewrite Hin, Hopen. simpl. lia. }
      exists path'. split; [|done]. simpl in Hin'. by apply elem_of_cons; right.
  - unfold handle_request. rewrite Hopen, Hin, handle_timeout_eq.
    rewrite loop_closed by (simpl; by rewrite ?Hfresh). simpl. by rewrite Hfresh.
  - unfold handle_request. rewrite Hopen, Hin. simpl. by rewrite Hfresh.
Qed.

(** X9. A code that [obtain_auth_code] returns is the first [code] value
    of a request that was delivered, and when a non-empty state was asked
    for, the first [state] value of that request is that state: the
    requests that fail the state check are passed over and their codes are
    never returned. *)
Theorem returned_code_was_delivered h listen_port auth_uri text request_state l code trace :
  obtain_auth_code h listen_port auth_uri text request_state l
  = (Return (Some code), trace) →
  ∃ path, Request path ∈ arrivals h
          ∧ first_value (decoded path) "code" = Some code
          ∧ (truthy request_state = true →
             first_value (decoded path) "state" = request_state).
Proof.
  destruct (default_controller h) as [d|] eqn:Hd;
    [|by rewrite obtain_auth_code_without_controller].
  destruct (decide (truthy text = true ∨ is_Some auth_uri)) as [Huri|Huri];
    [|by rewrite (obtain_auth_code_without_uri _ _ _ _ _ _ d)].
  rewrite (obtain_auth_code_eq _ _ _ _ _ _ d) by done.
  repeat case_bool_decide; [done..|]. unfold call.
  pose proof (loop_origin (World (Server (socket.getsockname h listen_port)
                                         request_state None 300 true) (arrivals h)
                             (l ++ opening h listen_port auth_uri text d
                                ++ [Bind "" listen_port])) code eq_refl eq_refl)
    as Horigin.
  rewrite get_auth_code_eq.
  destruct (while_not_auth_code _) as [[[]|e] w1]; [|done].
  simpl in *. intros [= Hcode _]. by apply Horigin.
Qed.

(** X10. A call of [get_auth_code] changes neither the address, nor the
    expected state, nor the timeout of the server, and reads the deliveries
    in order: what is left of them is a suffix. *)
Theorem session_keeps_its_settings w :
  socket_open (self w) = true →
  auth_code (self w) = None →
  server_address (self (get_auth_code w).2) = server_address (self w)
  ∧ state (self (get_auth_code w).2) = state (self w)
  ∧ timeout (self (get_auth_code w).2) = timeout (self w)
  ∧ inbox (get_auth_code w).2 `suffix_of` inbox w.
Proof.
  intros Hopen Hfresh.
  assert (server_address (self (while_not_auth_code w).2) = server_address (self w)
          ∧ state (self (while_not_auth_code w).2) = state (self w)
          ∧ timeout (self (while_not_auth_code w).2) = timeout (self w)
          ∧ inbox (while_not_auth_code w).2 `suffix_of` inbox w) as Hloop.
  { remember (pending w) as n eqn:Hn. revert w Hn Hopen Hfresh.
    induction n as [n IH] using lt_wf_ind. intros w -> Hopen Hfresh.
    rewrite loop_unfold, Hfresh. simpl.
    pose proof (handle_request_turn w Hopen) as Hturn.
    destruct (handle_request w) as [r w']. simpl in Hturn.
    inversion Hturn as [Hin|path rest e Hin He|path rest a c Hin|path rest Hin|rest Hin];
      subst.
    - rewrite loop_closed by (simpl; by rewrite ?Hfresh). simpl.
      repeat split; try done.
      destruct (inbox w); [done|]. by apply suffix_cons_r.
    - destruct (IH (pending (emit e (set_inbox rest w))))
        with (w := emit e (set_inbox rest w)) as (Ha & Hs & Ht & Hi); [|done..|].
      { unfold pending. simpl. rewrite Hin, Hopen. simpl. lia. }
      repeat split; try done. rewrite Hin. by apply suffix_cons_r.
    - rewrite loop_captured by done. simpl. repeat split; try done.
      rewrite Hin. by apply suffix_cons_r.
    - destruct (IH (pending (set_inbox rest w)))
        with (w := set_inbox rest w) as (Ha & Hs & Ht & Hi); [|done..|].
      { unfold pending. simpl. rewrite Hin, Hopen. simpl. lia. }
      repeat split; try done. rewrite Hin. by apply suffix_cons_r.
    - simpl. repeat split; try done. rewrite Hin. by apply suffix_cons_r. }
  rewrite get_auth_code_eq. by destruct (while_not_auth_code w) as [[[]|e] w1].
Qed.

Lemma returned_code_was_delivered_witness :
  ∃ path, Request path ∈ [Request "/"; Request "/?code=other&state=wrong";
                          Request "/?code=abc123&state=xyz"]
          ∧ first_value (decoded path) "code" = Some "abc123"
          ∧ (truthy (Some "xyz") = true →
             first_value (decoded path) "state" = Some "xyz").
Proof.
  apply (returned_code_was_delivered
           (Host (Some "xdg-open") [] []
                 [Request "/"; Request "/?code=other&state=wrong";
                  Request "/?code=abc123&state=xyz"])
           8000 (Some "https://login.example/authorize") None (Some "xyz") [] "abc123"
           [Log "INFO" ("Please open a browser on THIS device to visit: "
                        +:+ "https://login.example/authorize");
            Open "xdg-open" (Some "https://login.example/authorize");
            Bind "" 8000; served; completed; Close]).
  reflexivity.
Defined.

Lemma session_keeps_its_settings_witness :
  server_address (self (get_auth_code (listening (Some "xyz") [Request "/?code=a&state=xyz"; Quiet])).2)
  = ("0.0.0.0", 8000)
  ∧ state (self (get_auth_code (listening (Some "xyz") [Request "/?code=a&state=xyz"; Quiet])).2)
    = Some "xyz"
  ∧ timeout (self (get_auth_code (listening (Some "xyz") [Request "/?code=a&state=xyz"; Quiet])).2)
    = 300
  ∧ inbox (get_auth_code (listening (Some "xyz") [Request "/?code=a&state=xyz"; Quiet])).2
    `suffix_of` [Request "/?code=a&state=xyz"; Quiet].
Proof.
  apply (session_keeps_its_settings
           (listening (Some "xyz") [Request "/?code=a&state=xyz"; Quiet])); reflexivity.
Defined.

(** ** The choice of a browser *)

Lemma preferred_spec h names d :
  (∃ before after,
     names = before ++ preferred h names d :: after
     ∧ preferred h names d ∈ runnable h
     ∧ Forall (λ browser, browser ∉ runnable h) before)
  ∨ (preferred h names d = d ∧ Forall (λ browser, browser ∉ runnable h) names).
Proof.
  induction names as [|browser rest IH]; [by right|]. simpl.
  case_bool_decide as Hrun.
  - left. by exists [], rest.
  - destruct IH as [(before & after & Hsplit & Hin & Hnone)|[Hd Hnone]].
    + left. exists (browser :: before), after. split; [by rewrite Hsplit at 1|].
      split; [done|]. by constructor.
    + right. split; [done|]. by constructor.
Qed.

(** X11. Given a default controller and a URI, [browse] logs the URI and
    opens it once, with the first of chrome, firefox, safari and
    windows-default that is found, and with the default controller only when
    none of the four is; what [open] answers is ignored. *)
Theorem browse_prefers_popular_browsers h target l d :
  default_controller h = Some d →
  ∃ controller,
    browse h (Some target) l
    = (Return tt,
       l ++ [Log "INFO" ("Please open a browser on THIS device to visit: " +:+ target);
             Open controller (Some target)])
    ∧ ((∃ before after,
          ["chrome"; "firefox"; "safari"; "windows-default"]
          = before ++ controller :: after
          ∧ controller ∈ runnable h
          ∧ Forall (λ browser, browser ∉ runnable h) before)
       ∨ (controller = d
          ∧ Forall (λ browser, browser ∉ runnable h)
                   ["chrome"; "firefox"; "safari"; "windows-default"])).
Proof.
  intros Hd. exists (preferred h popular d). split; [by apply browse_eq|].
  apply (preferred_spec h popular d).
Qed.

Lemma browse_prefers_popular_browsers_witness :
  ∃ controller,
    browse (Host (Some "xdg-open") ["safari"; "firefox"] [] [])
           (Some "https://login.example/authorize") []
    = (Return tt,
       [Log "INFO" "Please open a browser on THIS device to visit: https://login.example/authorize";
        Open controller (Some "https://login.example/authorize")])
    ∧ ((∃ before after,
          ["chrome"; "firefox"; "safari"; "windows-default"]
          = before ++ controller :: after
          ∧ controller ∈ ["safari"; "firefox"]
          ∧ Forall (λ browser, browser ∉ ["safari"; "firefox"]) before)
       ∨ (controller = "xdg-open"
          ∧ Forall (λ browser, browser ∉ ["safari"; "firefox"])
                   ["chrome"; "firefox"; "safari"; "windows-default"])).
Proof.
  apply (browse_prefers_popular_browsers
           (Host (Some "xdg-open") ["safari"; "firefox"] [] [])
           "https://login.example/authorize" [] "xdg-open").
  reflexivity.
Defined.

(** X12. When [webbrowser.get()] finds no default controller,
    [obtain_auth_code] raises [webbrowser.Error] whatever the other
    arguments: no browser is opened, no port is bound and no request is
    read; only the warning with the exit hint has been logged when [text]
    was given. *)
Theorem missing_default_controller_is_fatal h listen_port auth_uri text request_state l :
  default_controller h = None →
  obtain_auth_code h listen_port auth_uri text request_state l
  = (Raise webbrowser_Error,
     l ++ (if truthy text then [Log "WARNING" (exit_hint listen_port)] else [])).
Proof.
  intros Hd. unfold obtain_auth_code. destruct (truthy text); run_monad;
    rewrite browse_fails by done; by rewrite ?app_nil_r.
Qed.

Lemma missing_default_controller_is_fatal_witness :
  obtain_auth_code (Host None ["firefox"] [] [Request "/?code=abc123"]) 8000
                   (Some "https://login.example/authorize") (Some "Sign in") None []
  = (Raise webbrowser_Error,
     [Log "WARNING" "Visit http://localhost:8000?auth_code=exit to abort"]).
Proof.
  apply (missing_default_controller_is_fatal
           (Host None ["firefox"] [] [Request "/?code=abc123"]) 8000
           (Some "https://login.example/authorize") (Some "Sign in") None []).
  reflexivity.
Defined.

(** ** The landing-page flow, end to end *)

Lemma loop_ends_on_capture w path rest code :
  socket_open (self w) = true → auth_code (self w) = None →
  inbox w = Request path :: rest →
  code ≠ "" →
  AuthCodeReceiver.do_GET path (set_inbox rest w)
  = (Return tt, emit completed (set_auth_code (Some code) (set_inbox rest w))) →
  get_auth_code w
  = (Return (Some code),
     closed (emit completed (set_auth_code (Some code) (set_inbox rest w)))).
Proof.
  intros Hopen Hfresh Hin Hcode Hget.
  rewrite get_auth_code_eq, loop_unfold, Hfresh. simpl.
  rewrite (handle_request_on_request w path rest), Hget by done.
  rewrite loop_captured; [done|]. by destruct code.
Qed.

(** X13. The landing-page flow from end to end: with a default controller,
    a free port between 0 and 65535 and [text] given, when the browser requests the landing
    page and then comes back with the encoded code and the expected state,
    [obtain_auth_code] returns that code, having opened the browser, bound
    the port, rendered the landing page, confirmed the capture and closed
    the server, in this order. *)
Theorem landing_page_flow h listen_port auth_uri text st code d l rest :
  default_controller h = Some d →
  0 ≤ listen_port ≤ 65535 →
  listen_port ∉ ports_in_use h →
  truthy text = true →
  str auth_uri ≠ "" →
  st ≠ "" →
  code ≠ "" →
  arrivals h
  = Request ("/" +:+ "?" +:+
             urllib.urlencode [("text", str text); ("link", str auth_uri);
                               ("exit_hint", exit_hint listen_port)])
    :: Request ("/" +:+ "?" +:+ urllib.urlencode [("code", code); ("state", st)])
    :: rest →
  obtain_auth_code h listen_port auth_uri text (Some st) l
  = (Return (Some code),
     l ++ opening h listen_port auth_uri text d
       ++ [Bind "" listen_port;
           Respond 200 "text/html"
             ("<a href=" +:+ str auth_uri +:+ ">" +:+ str text +:+ "</a><hr/>" +:+
              exit_hint listen_port);
           completed;
           Close]).
Proof.
  intros Hd Hport Hfree Htext Hlink Hst Hcode Harr.
  rewrite (obtain_auth_code_eq _ _ _ _ _ _ d) by (done || by left).
  rewrite bool_decide_eq_false_2 by lia.
  rewrite bool_decide_eq_false_2 by done. unfold call. rewrite Harr.
  set (tr := l ++ opening h listen_port auth_uri text d ++ [Bind "" listen_port]).
  set (w := World (Server (socket.getsockname h listen_port) (Some st) None 300 true) _ tr).
  destruct (loop_after_reply w _ _
              (Respond 200 "text/html"
                 ("<a href=" +:+ str auth_uri +:+ ">" +:+ str text +:+ "</a><hr/>" +:+
                  exit_hint listen_port))
              eq_refl eq_refl eq_refl) as [_ ->].
  { apply do_GET_encoded_landing;
      [done|done|by apply truthy_str|done|apply exit_hint_nonblank]. }
  erewrite loop_ends_on_capture; [|done|done|done|done|].
  - simpl. subst tr. by rewrite <- !app_assoc.
  - apply (do_GET_capture _ _ code []); rewrite decoded_redirect_items by done.
    + rewrite lookup_insert_ne by done. apply lookup_insert_eq.
    + right. unfold first_value. by rewrite lookup_insert_eq.
Qed.

Lemma landing_page_flow_witness :
  obtain_auth_code
    (Host (Some "xdg-open") [] []
          [Request ("/" +:+ "?" +:+
                    urllib.urlencode [("text", "Sign in");
                                      ("link", "https://login.example/authorize");
                                      ("exit_hint", exit_hint 8000)]);
           Request ("/" +:+ "?" +:+ urllib.urlencode [("code", "abc/123"); ("state", "x y")])])
    8000 (Some "https://login.example/authorize") (Some "Sign in") (Some "x y") []
  = (Return (Some "abc/123"),
     [] ++ opening (Host (Some "xdg-open") [] []
          [Request ("/" +:+ "?" +:+
                    urllib.urlencode [("text", "Sign in");
                                      ("link", "https://login.example/authorize");
                                      ("exit_hint", exit_hint 8000)]);
           Request ("/" +:+ "?" +:+ urllib.urlencode [("code", "abc/123"); ("state", "x y")])])
          8000 (Some "https://login.example/authorize") (Some "Sign in") "xdg-open"
       ++ [Bind "" 8000;
           Respond 200 "text/html"
             ("<a href=" +:+ "https://login.example/authorize" +:+ ">" +:+ "Sign in"
              +:+ "</a><hr/>" +:+ exit_hint 8000);
           completed;
           Close]).
Proof.
  apply (landing_page_flow _ 8000 (Some "https://login.example/authorize") (Some "Sign in")
           "x y" "abc/123" "xdg-open" [] []); try reflexivity; try discriminate;
    [lia|].
  apply (bool_decide_unpack _). vm_compute. exact I.
Defined.

(** ** Outcomes *)

(** X14. A session that has returned cannot be resumed: a second call of
    [get_auth_code] returns the same value again and reads no further
    delivery. *)
Theorem finished_session_stays_finished w code :
  socket_open (self w) = true →
  auth_code (self w) = None →
  (get_auth_code w).1 = Return code →
  get_auth_code (get_auth_code w).2 = (Return code, closed (get_auth_code w).2).
Proof.
  intros Hopen Hfresh. pose proof (loop_terminal w Hopen Hfresh) as Hterm.
  rewrite (get_auth_code_eq w).
  destruct (while_not_auth_code w) as [r w1]. simpl in Hterm.
  destruct Hterm as [pre a c -> Hc Ho Hout Hpre|pre -> Hc Ho Hout Hpre
                    |pre -> Hc Ho Hout Hpre];
    simpl; [| |done]; intros [= <-]; rewrite get_auth_code_eq.
  - rewrite loop_captured by (simpl; by rewrite Hc). simpl. by rewrite Hc.
  - rewrite loop_closed by (simpl; by rewrite ?Hc). simpl. by rewrite Hc.
Qed.

Lemma finished_session_stays_finished_witness :
  get_auth_code (get_auth_code (listening None [Request "/?code=abc123"; Request "/?code=other"])).2
  = (Return (Some "abc123"),
     closed (get_auth_code (listening None [Request "/?code=abc123"; Request "/?code=other"])).2).
Proof.
  apply (finished_session_stays_finished
           (listening None [Request "/?code=abc123"; Request "/?code=other"])
           (Some "abc123")); reflexivity.
Defined.
